(** * BParticles: particle function builder

    A shallow embedding of
    [source/blender/simulations/bparticles/particle_function_builder.cpp]:
    the dependency analysis over the data graph, the input providers and
    their factory, the partition of the requested sockets and the assembly
    of the [ParticleFunction].

    Conventions.
    - [uint] sizes and indices are [nat]: they count elements of vectors
      that live in memory, so the 32 bit wrap-around is never reached.
    - A pointer that may be null is an [option]; [None] is [nullptr].
    - [float] is kept abstract together with its subtraction: the file
      only moves floats around and subtracts them.
    - A C++ call can return, stop the process at a failed assertion, or run
      into undefined behaviour; [Outcome] keeps the three apart. *)

From stdpp Require Import base option list strings.
From Stdlib Require Import ZArith.

Open Scope string_scope.
Open Scope list_scope.
Open Scope nat_scope.

(** ** Outcomes of a call *)

Inductive Outcome (A : Type) : Type :=
| Ret (a : A)
| Abort
| Undefined.

Arguments Ret {A} a.
Arguments Abort {A}.
Arguments Undefined {A}.

#[global] Instance Outcome_ret : MRet Outcome := @Ret.

#[global] Instance Outcome_bind : MBind Outcome := λ A B f m,
  match m with
  | Ret a => f a
  | Abort => Abort
  | Undefined => Undefined
  end.

(** [BLI_assert] is a macro of [BLI_assert.h], defined outside the file
    embedded here.  It is a debug assertion: a failed condition stops the
    process where assertions abort, and the statement has no effect where
    they are compiled out ([create_input_provider] goes on to
    [return nullptr] after [BLI_assert(false)]).  The way the program was
    built is therefore a parameter of every function that asserts. *)
Inductive AssertMode : Type :=
| AssertAbort
| AssertIgnore.

Definition BLI_assert (mode : AssertMode) (condition : bool) : Outcome unit :=
  if condition then Ret ()
  else match mode with
       | AssertAbort => Abort
       | AssertIgnore => Ret ()
       end.

(** The containers ([ArrayRef], [Vector], [SetVector], [AttributeArrays])
    assert their precondition (an index in range, a known attribute name)
    and then access the element: where the precondition fails that is a
    failed assertion followed by an access outside the storage. *)
Definition out_of_range {A : Type} (mode : AssertMode) : Outcome A :=
  BLI_assert mode false ≫= λ _, Undefined.

Definition array_get {A : Type} (mode : AssertMode) (array : list A) (index : nat)
  : Outcome A :=
  match array !! index with
  | Some value => Ret value
  | None => out_of_range mode
  end.

Definition array_set {A : Type} (mode : AssertMode) (array : list A) (index : nat)
    (value : A) : Outcome (list A) :=
  if decide (index < length array) then Ret (<[index := value]> array)
  else out_of_range mode.

(** [for (uint i = start; i < start + count; i++) body] over a loop state. *)
Fixpoint for_range {State : Type} (body : nat → State → Outcome State)
    (start count : nat) (state : State) : Outcome State :=
  match count with
  | 0 => Ret state
  | S count' => body start state ≫= for_range body (S start) count'
  end.

(** [for (x : values) body] over a loop state. *)
Fixpoint for_each {A State : Type} (body : A → State → Outcome State)
    (values : list A) (state : State) : Outcome State :=
  match values with
  | [] => Ret state
  | value :: values' => body value state ≫= for_each body values'
  end.

(** [SetVector<T>]: a vector without duplicates, in insertion order. *)
Section SetVector.
Context {T : Type} `{EqDecision T}.

Definition SetVector_add (elements : list T) (value : T) : list T :=
  if decide (value ∈ elements) then elements else elements ++ [value].

Definition SetVector_add_multiple (elements values : list T) : list T :=
  foldl SetVector_add elements values.
End SetVector.

(** ** Sockets, virtual sockets and the data graph *)

(** [FN::DataSocket]: a socket of the data graph, identified by its side
    and number. *)
Record DataSocket : Type := {
  socket_is_output : bool;
  socket_id : nat
}.

#[global] Instance DataSocket_eq_dec : EqDecision DataSocket.
Proof. solve_decision. Defined.

(** [BKE::VirtualNode], as far as this file reads it. *)
Record VirtualNode : Type := {
  vnode_idname : string;
  vnode_name : string
}.

#[global] Instance VirtualNode_eq_dec : EqDecision VirtualNode.
Proof. solve_decision. Defined.

(** [BKE::VirtualSocket *]: the address gives the identity of the pointer,
    the other fields are what [name()] and [vnode()] return. *)
Record VirtualSocket : Type := {
  vsocket_address : nat;
  vsocket_name : string;
  vsocket_vnode : VirtualNode
}.

#[global] Instance VirtualSocket_eq_dec : EqDecision VirtualSocket.
Proof. solve_decision. Defined.

(** Modelled from the spec: what [find_placeholder_dependencies] reports for
    one socket is declared with the data graph.  It is the placeholder
    sockets the socket depends on, each with the virtual socket it
    originates from; the fields [sockets] and [vsockets] are the two
    columns and [size()] is the number of rows. *)
Definition PlaceholderDependencies : Type := list (DataSocket * VirtualSocket).

(** Modelled from the spec: [VTreeDataGraph] is declared in the functions
    library.  The data graph is read only and provides the socket of a
    virtual socket, when it has one, and the placeholder dependencies of a
    socket; [vnode_inputs] is [vnode->inputs()] of the tree behind it. *)
Record VTreeDataGraph : Type := {
  vnode_inputs : VirtualNode → list VirtualSocket;
  lookup_socket_ptr : VirtualSocket → option DataSocket;
  find_placeholder_dependencies : DataSocket → PlaceholderDependencies
}.

Definition find_input_data_sockets (vnode : VirtualNode) (data_graph : VTreeDataGraph)
  : list DataSocket :=
  foldl (λ inputs vsocket,
           match lookup_socket_ptr data_graph vsocket with
           | Some socket => inputs ++ [socket]
           | None => inputs
           end)
        [] (vnode_inputs data_graph vnode).

(** ** Dependency analysis *)

Record SocketDependencies : Type := {
  sockets : list DataSocket;
  vsockets : list VirtualSocket
}.

(** The state of the loop of [find_particle_dependencies]: the combined
    dependencies and the flag array the caller passed in. *)
Definition DependencyState : Type := (SocketDependencies * list bool)%type.

Definition find_particle_dependencies_body (mode : AssertMode)
    (data_graph : VTreeDataGraph) (sockets_to_compute : list DataSocket)
    (i : nat) (state : DependencyState) : Outcome DependencyState :=
  let '(combined_dependencies, r_depends_on_particle_flags) := state in
  socket ← array_get mode sockets_to_compute i;
  let dependencies := find_placeholder_dependencies data_graph socket in
  let has_dependency := bool_decide (0 < length dependencies) in
  flags ← array_set mode r_depends_on_particle_flags i has_dependency;
  let combined :=
    {| sockets := SetVector_add_multiple (sockets combined_dependencies) dependencies.*1;
       vsockets := SetVector_add_multiple (vsockets combined_dependencies) dependencies.*2 |} in
  _ ← BLI_assert mode (bool_decide (length (sockets combined) = length (vsockets combined)));
  Ret (combined, flags).

(** The state after the first [count] rounds of the loop. *)
Definition find_particle_dependencies_upto (mode : AssertMode)
    (data_graph : VTreeDataGraph) (sockets_to_compute : list DataSocket)
    (r_depends_on_particle_flags : list bool) (count : nat) : Outcome DependencyState :=
  for_range (find_particle_dependencies_body mode data_graph sockets_to_compute) 0 count
            ({| sockets := []; vsockets := [] |}, r_depends_on_particle_flags).

Definition find_particle_dependencies (mode : AssertMode)
    (data_graph : VTreeDataGraph) (sockets_to_compute : list DataSocket)
    (r_depends_on_particle_flags : list bool) : Outcome DependencyState :=
  find_particle_dependencies_upto mode data_graph sockets_to_compute
    r_depends_on_particle_flags (length sockets_to_compute).

(** ** Input providers *)

Inductive ParticleFunctionInputProvider : Type :=
| AttributeInputProvider (m_name : string)
| CollisionNormalInputProvider
| AgeInputProvider.

#[global] Instance ParticleFunctionInputProvider_eq_dec :
  EqDecision ParticleFunctionInputProvider.
Proof. solve_decision. Defined.

Definition STREQ (a b : string) : bool := bool_decide (a = b).

Definition create_input_provider (mode : AssertMode) (vsocket : VirtualSocket)
  : Outcome (option ParticleFunctionInputProvider) :=
  let vnode := vsocket_vnode vsocket in
  if STREQ (vnode_idname vnode) "bp_ParticleInfoNode" then
    if STREQ (vsocket_name vsocket) "Age" then
      Ret (Some AgeInputProvider)
    else
      Ret (Some (AttributeInputProvider (vsocket_name vsocket)))
  else if STREQ (vnode_idname vnode) "bp_CollisionInfoNode" then
    Ret (Some CollisionNormalInputProvider)
  else
    _ ← BLI_assert mode false;
    Ret None.

(** ** The interface of an evaluation *)

(** Modelled from the spec: the attribute storage is column storage owned
    by the simulation and queried by name.  A column has its name, the
    stride of its elements and, for a column of floats, its elements. *)
Record AttributeColumn (float : Type) : Type := {
  attribute_name : string;
  attribute_stride : nat;
  attribute_floats : option (list float)
}.
Arguments attribute_name {float} _.
Arguments attribute_stride {float} _.
Arguments attribute_floats {float} _.

Record ParticleSet (float : Type) : Type := {
  attributes : list (AttributeColumn float);
  pindices : list nat
}.
Arguments attributes {float} _.
Arguments pindices {float} _.

(** Modelled from the spec: the time of a batch is known either as the
    current time of every particle, or as the remaining duration of every
    particle and one end time. *)
Inductive ParticleTimes (float : Type) : Type :=
| Current (current_times : list float)
| DurationAndEnd (remaining_durations : list float) (end_time : float).
Arguments Current {float} _.
Arguments DurationAndEnd {float} _ _.

(** Modelled from the spec: the context of an action is an object tagged
    with its kind; [CollisionEventInfo] is the class the collision provider
    casts to, and it holds the normals of the collisions. *)
Inductive ActionContext (float : Type) : Type :=
| CollisionEventInfo (normals : list (float * float * float))
| OtherActionContext.
Arguments CollisionEventInfo {float} _.
Arguments OtherActionContext {float}.

(** Modelled from the spec: the allocator of an evaluation hands out arrays
    of [array_size] elements.  [arena] holds the arrays handed out so far,
    and [uninitialized] is what the memory of a new array happens to hold. *)
Record ArrayAllocator (float : Type) : Type := {
  array_size : nat;
  arena : list (list float);
  uninitialized : nat → float
}.
Arguments array_size {float} _.
Arguments arena {float} _.
Arguments uninitialized {float} _.

Record InputProviderInterface (float : Type) : Type := {
  particles : ParticleSet float;
  particle_times : ParticleTimes float;
  action_context : option (ActionContext float);
  array_allocator : ArrayAllocator float
}.
Arguments particles {float} _.
Arguments particle_times {float} _.
Arguments action_context {float} _.
Arguments array_allocator {float} _.

(** Modelled from the spec: a provider fills an input slot with a buffer, a
    stride and an ownership flag.  The buffer points into a column of the
    attribute storage, to an array of the allocator, or to the normals of
    the collision event. *)
Inductive BufferPtr : Type :=
| AttributePtr (attribute_index : nat)
| ArenaPtr (array : nat)
| CollisionNormalsPtr.

Record ParticleFunctionInputArray : Type := {
  buffer : BufferPtr;
  stride : nat;
  is_owned : bool
}.

Definition sizeof_float : nat := 4.
Definition sizeof_float3 : nat := 12.

Section Providers.
Context {float : Type}.
Variable fsub : float → float → float.
Variable mode : AssertMode.

(** [attributes.attribute_index(name)] *)
Definition attribute_index (attributes : list (AttributeColumn float)) (name : string)
  : Outcome nat :=
  match list_find (λ column, attribute_name column = name) attributes with
  | Some (index, _) => Ret index
  | None => out_of_range mode
  end.

(** [attributes.get<float>(name)] *)
Definition attributes_get_float (attributes : list (AttributeColumn float))
    (name : string) : Outcome (list float) :=
  index ← attribute_index attributes name;
  column ← array_get mode attributes index;
  match attribute_floats column with
  | Some values => Ret values
  | None => out_of_range mode
  end.

(** [allocate<float>()]: a new array, not yet written. *)
Definition allocate (allocator : ArrayAllocator float) : nat * ArrayAllocator float :=
  (length (arena allocator),
   {| array_size := array_size allocator;
      arena := arena allocator ++ [uninitialized allocator <$> seq 0 (array_size allocator)];
      uninitialized := uninitialized allocator |}).

(** [array[index] = value] through the raw pointer [allocate] returned. *)
Definition store (array index : nat) (value : float) (allocator : ArrayAllocator float)
  : Outcome (ArrayAllocator float) :=
  match arena allocator !! array with
  | Some values =>
      if decide (index < length values) then
        Ret {| array_size := array_size allocator;
               arena := <[array := <[index := value]> values]> (arena allocator);
               uninitialized := uninitialized allocator |}
      else Undefined
  | None => Undefined
  end.

Definition with_allocator (interface : InputProviderInterface float)
    (allocator : ArrayAllocator float) : InputProviderInterface float :=
  {| particles := particles interface;
     particle_times := particle_times interface;
     action_context := action_context interface;
     array_allocator := allocator |}.

Definition AttributeInputProvider_get (m_name : string)
    (interface : InputProviderInterface float)
  : Outcome (ParticleFunctionInputArray * InputProviderInterface float) :=
  let attributes := attributes (particles interface) in
  index ← attribute_index attributes m_name;
  column ← array_get mode attributes index;
  Ret ({| buffer := AttributePtr index;
          stride := attribute_stride column;
          is_owned := false |}, interface).

Definition dynamic_cast_CollisionEventInfo (action_context : option (ActionContext float))
  : option (list (float * float * float)) :=
  match action_context with
  | Some (CollisionEventInfo normals) => Some normals
  | _ => None
  end.

(** After the two assertions the source calls [collision_info->normals()];
    on a null [collision_info] that is a read through the null pointer. *)
Definition CollisionNormalInputProvider_get (interface : InputProviderInterface float)
  : Outcome (ParticleFunctionInputArray * InputProviderInterface float) :=
  let action_context := action_context interface in
  _ ← BLI_assert mode (bool_decide (is_Some action_context));
  let collision_info := dynamic_cast_CollisionEventInfo action_context in
  _ ← BLI_assert mode (bool_decide (is_Some collision_info));
  match collision_info with
  | Some normals =>
      Ret ({| buffer := CollisionNormalsPtr;
              stride := sizeof_float3;
              is_owned := false |}, interface)
  | None => Undefined
  end.

(** [ParticleTimes::Type] has the two values [Current] and
    [DurationAndEnd]; the last [else] of the source, [BLI_assert(false)],
    has no value of the type to run on. *)
Definition AgeInputProvider_get (interface : InputProviderInterface float)
  : Outcome (ParticleFunctionInputArray * InputProviderInterface float) :=
  birth_times ← attributes_get_float (attributes (particles interface)) "Birth Time";
  let '(ages, allocator) := allocate (array_allocator interface) in
  allocator ←
    match particle_times interface with
    | Current current_times =>
        for_each (λ pindex allocator,
                    current_time ← array_get mode current_times pindex;
                    birth_time ← array_get mode birth_times pindex;
                    store ages pindex (fsub current_time birth_time) allocator)
                 (pindices (particles interface)) allocator
    | DurationAndEnd remaining_durations end_time =>
        for_each (λ pindex allocator,
                    remaining_duration ← array_get mode remaining_durations pindex;
                    birth_time ← array_get mode birth_times pindex;
                    store ages pindex
                          (fsub (fsub end_time remaining_duration) birth_time) allocator)
                 (pindices (particles interface)) allocator
    end;
  Ret ({| buffer := ArenaPtr ages;
          stride := sizeof_float;
          is_owned := true |}, with_allocator interface allocator).

(** The virtual call [provider->get(interface)]. *)
Definition ParticleFunctionInputProvider_get (provider : ParticleFunctionInputProvider)
    (interface : InputProviderInterface float)
  : Outcome (ParticleFunctionInputArray * InputProviderInterface float) :=
  match provider with
  | AttributeInputProvider m_name => AttributeInputProvider_get m_name interface
  | CollisionNormalInputProvider => CollisionNormalInputProvider_get interface
  | AgeInputProvider => AgeInputProvider_get interface
  end.
End Providers.

(** ** Building the functions *)

Record FunctionGraph : Type := {
  fgraph_inputs : list DataSocket;
  fgraph_outputs : list DataSocket
}.

(** The bodies a function can carry: the interpreted one and the one that
    builds LLVM IR. *)
Inductive FunctionBody : Type :=
| TupleCallBody (fgraph : FunctionGraph)
| LLVMBuildIRBody (fgraph : FunctionGraph).

Record SharedFunction : Type := {
  fn_name : string;
  fn_inputs : list DataSocket;
  fn_outputs : list DataSocket;
  fn_bodies : list FunctionBody
}.

(** Modelled from the spec: [FunctionBuilder] and the two [fgraph_add_...]
    functions belong to the code-generation backend.  A function is built
    from the input and output sockets it names, and an execution strategy
    is attached to it as a body. *)
Record FunctionBuilder : Type := {
  builder_inputs : list DataSocket;
  builder_outputs : list DataSocket
}.

Definition FunctionBuilder_new : FunctionBuilder :=
  {| builder_inputs := []; builder_outputs := [] |}.

Definition add_inputs (fn_builder : FunctionBuilder) (inputs : list DataSocket)
  : FunctionBuilder :=
  {| builder_inputs := builder_inputs fn_builder ++ inputs;
     builder_outputs := builder_outputs fn_builder |}.

Definition add_outputs (fn_builder : FunctionBuilder) (outputs : list DataSocket)
  : FunctionBuilder :=
  {| builder_inputs := builder_inputs fn_builder;
     builder_outputs := builder_outputs fn_builder ++ outputs |}.

Definition build (fn_builder : FunctionBuilder) (function_name : string) : SharedFunction :=
  {| fn_name := function_name;
     fn_inputs := builder_inputs fn_builder;
     fn_outputs := builder_outputs fn_builder;
     fn_bodies := [] |}.

Definition add_body (fn : SharedFunction) (body : FunctionBody) : SharedFunction :=
  {| fn_name := fn_name fn;
     fn_inputs := fn_inputs fn;
     fn_outputs := fn_outputs fn;
     fn_bodies := fn_bodies fn ++ [body] |}.

Definition fgraph_add_TupleCallBody (fn : SharedFunction) (fgraph : FunctionGraph)
  : SharedFunction :=
  add_body fn (TupleCallBody fgraph).

Definition fgraph_add_LLVMBuildIRBody (fn : SharedFunction) (fgraph : FunctionGraph)
  : SharedFunction :=
  add_body fn (LLVMBuildIRBody fgraph).

(** The loop of [create_function__with_deps] that fills [r_input_providers]. *)
Definition create_function__with_deps_body (mode : AssertMode)
    (dependencies : SocketDependencies) (i : nat)
    (r_input_providers : list (option ParticleFunctionInputProvider))
  : Outcome (list (option ParticleFunctionInputProvider)) :=
  vsocket ← array_get mode (vsockets dependencies) i;
  provider ← create_input_provider mode vsocket;
  array_set mode r_input_providers i provider.

Definition create_function__with_deps (mode : AssertMode) (function_name : string)
    (sockets_to_compute : list DataSocket) (dependencies : SocketDependencies)
    (r_input_providers : list (option ParticleFunctionInputProvider))
  : Outcome (SharedFunction * list (option ParticleFunctionInputProvider)) :=
  let input_amount := length (sockets dependencies) in
  _ ← BLI_assert mode (bool_decide (input_amount = length r_input_providers));
  let fn_builder := FunctionBuilder_new in
  let fn_builder := add_inputs fn_builder (sockets dependencies) in
  let fn_builder := add_outputs fn_builder sockets_to_compute in
  input_providers ←
    for_range (create_function__with_deps_body mode dependencies) 0 input_amount
              r_input_providers;
  let fn := build fn_builder function_name in
  let fgraph := {| fgraph_inputs := sockets dependencies;
                   fgraph_outputs := sockets_to_compute |} in
  let fn := fgraph_add_TupleCallBody fn fgraph in
  let fn := fgraph_add_LLVMBuildIRBody fn fgraph in
  Ret (fn, input_providers).

Definition create_function__without_deps (function_name : string)
    (sockets_to_compute : list DataSocket) : SharedFunction :=
  let fn_builder := FunctionBuilder_new in
  let fn_builder := add_outputs fn_builder sockets_to_compute in
  let fn := build fn_builder function_name in
  let fgraph := {| fgraph_inputs := []; fgraph_outputs := sockets_to_compute |} in
  let fn := fgraph_add_TupleCallBody fn fgraph in
  fn.

(** ** The particle function *)

Inductive ValueOrError (A : Type) : Type :=
| Value (value : A)
| Error (message : string).
Arguments Value {A} _.
Arguments Error {A} _.

(** Modelled from the spec: the class [ParticleFunction] is declared in its
    own header.  It owns the two functions, the input providers and the
    flag of every requested output. *)
Record ParticleFunction : Type := {
  fn_without_deps : SharedFunction;
  fn_with_deps : SharedFunction;
  input_providers : list (option ParticleFunctionInputProvider);
  depends_on_particle_flags : list bool
}.

(** The first loop of [create_particle_function_from_sockets]; its state is
    the pair of [sockets_with_deps] and [sockets_without_deps]. *)
Definition partition_sockets_body (mode : AssertMode)
    (sockets_to_compute : list DataSocket) (depends_on_particle_flags : list bool)
    (i : nat) (state : list DataSocket * list DataSocket)
  : Outcome (list DataSocket * list DataSocket) :=
  let '(sockets_with_deps, sockets_without_deps) := state in
  flag ← array_get mode depends_on_particle_flags i;
  socket ← array_get mode sockets_to_compute i;
  if flag : bool then Ret (sockets_with_deps ++ [socket], sockets_without_deps)
  else Ret (sockets_with_deps, sockets_without_deps ++ [socket]).

Definition partition_sockets (mode : AssertMode)
    (sockets_to_compute : list DataSocket) (depends_on_particle_flags : list bool)
  : Outcome (list DataSocket * list DataSocket) :=
  for_range (partition_sockets_body mode sockets_to_compute depends_on_particle_flags)
            0 (length sockets_to_compute) ([], []).

(** [input_providers] starts as one null pointer per dependency socket. *)
Definition create_particle_function_from_sockets (mode : AssertMode) (name : string)
    (sockets_to_compute : list DataSocket) (depends_on_particle_flags : list bool)
    (dependencies : SocketDependencies)
  : Outcome (ValueOrError (option ParticleFunction)) :=
  '(sockets_with_deps, sockets_without_deps) ←
    partition_sockets mode sockets_to_compute depends_on_particle_flags;
  let input_providers := replicate (length (sockets dependencies)) None in
  let fn_without_deps := create_function__without_deps name sockets_without_deps in
  '(fn_with_deps, input_providers) ←
    create_function__with_deps mode name sockets_with_deps dependencies input_providers;
  let particle_fn :=
    {| fn_without_deps := fn_without_deps;
       fn_with_deps := fn_with_deps;
       input_providers := input_providers;
       depends_on_particle_flags := depends_on_particle_flags |} in
  Ret (Value (Some particle_fn)).

(** [Vector<bool> depends_on_particle_flags(n)] holds [n] flags, all false
    until the analysis writes them. *)
Definition create_particle_function (mode : AssertMode) (vnode : VirtualNode)
    (data_graph : VTreeDataGraph) : Outcome (ValueOrError (option ParticleFunction)) :=
  let sockets_to_compute := find_input_data_sockets vnode data_graph in
  let depends_on_particle_flags := replicate (length sockets_to_compute) false in
  '(dependencies, depends_on_particle_flags) ←
    find_particle_dependencies mode data_graph sockets_to_compute depends_on_particle_flags;
  let name := vnode_name vnode +:+ " Inputs" in
  create_particle_function_from_sockets mode name sockets_to_compute
    depends_on_particle_flags dependencies.

(** The recombination the flags are kept for (the facade does it at
    evaluation time, outside this file): walk the flags and take the next
    element of the list the flag names. *)
Fixpoint merge_by_flags {A : Type} (flags : list bool) (with_deps without_deps : list A)
  : list A :=
  match flags with
  | [] => []
  | true :: flags' =>
      match with_deps with
      | x :: with_deps' => x :: merge_by_flags flags' with_deps' without_deps
      | [] => []
      end
  | false :: flags' =>
      match without_deps with
      | x :: without_deps' => x :: merge_by_flags flags' with_deps without_deps'
      | [] => []
      end
  end.

(** ** Properties of the graph the results are stated with *)

(** Everything the graph reports for the requested sockets. *)
Definition reported_pairs (data_graph : VTreeDataGraph) (requested : list DataSocket)
  : list (DataSocket * VirtualSocket) :=
  requested ≫= find_placeholder_dependencies data_graph.

(** The reports under which the two collections stay aligned: a placeholder
    socket is reported with one virtual socket, and a virtual socket with
    one placeholder socket.  The two set vectors of
    [find_particle_dependencies] drop duplicates each on its own, so their
    alignment rests on it. *)
Definition origin_one_to_one (pairs : list (DataSocket * VirtualSocket)) : Prop :=
  Forall (λ p, Forall (λ q, p.1 = q.1 ↔ p.2 = q.2) pairs) pairs.

(** The node kinds the provider factory knows. *)
Definition supported (vsocket : VirtualSocket) : Prop :=
  vnode_idname (vsocket_vnode vsocket) = "bp_ParticleInfoNode"
  ∨ vnode_idname (vsocket_vnode vsocket) = "bp_CollisionInfoNode".

(** What holds of the loop state of [find_particle_dependencies] after
    [count] rounds: the flags of the sockets seen so far are set, and the
    two collections are the columns of one duplicate-free list of reported
    pairs. *)
Definition analysed (data_graph : VTreeDataGraph) (sockets_to_compute : list DataSocket)
    (count : nat) (state : DependencyState) : Prop :=
  length state.2 = length sockets_to_compute
  ∧ (∀ j socket, j < count → sockets_to_compute !! j = Some socket →
       state.2 !! j
       = Some (bool_decide (find_placeholder_dependencies data_graph socket ≠ [])))
  ∧ ∃ pairs, sockets state.1 = pairs.*1 ∧ vsockets state.1 = pairs.*2
       ∧ NoDup pairs.*1 ∧ NoDup pairs.*2
       ∧ ∀ p, p ∈ pairs → p ∈ reported_pairs data_graph (take count sockets_to_compute).

(** The function [create_function__with_deps] builds, whatever the providers. *)
Definition function_with_deps (function_name : string)
    (sockets_to_compute : list DataSocket) (dependencies : SocketDependencies)
  : SharedFunction :=
  let fgraph := {| fgraph_inputs := sockets dependencies;
                   fgraph_outputs := sockets_to_compute |} in
  {| fn_name := function_name;
     fn_inputs := sockets dependencies;
     fn_outputs := sockets_to_compute;
     fn_bodies := [TupleCallBody fgraph; LLVMBuildIRBody fgraph] |}.

(** The age the spec gives particle [pindex]: the current time minus the
    birth time, where the current time of the duration-and-end variant is
    the end time minus the remaining duration. *)
Definition age_of {float : Type} (fsub : float → float → float)
    (times : ParticleTimes float) (birth_times : list float) (pindex : nat)
  : option float :=
  match times with
  | Current current_times =>
      current_time ← current_times !! pindex;
      birth_time ← birth_times !! pindex;
      Some (fsub current_time birth_time)
  | DurationAndEnd remaining_durations end_time =>
      remaining_duration ← remaining_durations !! pindex;
      birth_time ← birth_times !! pindex;
      Some (fsub (fsub end_time remaining_duration) birth_time)
  end.

(** The allocator after some stores to one array: the array has changed and
    nothing else. *)
Definition stored_to {float : Type} (array : nat)
    (before after : ArrayAllocator float) : Prop :=
  array_size after = array_size before
  ∧ uninitialized after = uninitialized before
  ∧ ∃ values values', arena before !! array = Some values
                      ∧ length values' = length values
                      ∧ arena after = <[array := values']> (arena before).

(** The indices of a batch the age provider can read and write: inside the
    array it allocates, the birth times and the times of the variant. *)
Definition pindices_in_range {float : Type} (interface : InputProviderInterface float)
    (birth_times : list float) : Prop :=
  Forall (λ pindex,
            pindex < array_size (array_allocator interface)
            ∧ pindex < length birth_times
            ∧ pindex < match particle_times interface with
                       | Current current_times => length current_times
                       | DurationAndEnd remaining_durations _ => length remaining_durations
                       end)
         (pindices (particles interface)).

(** The two collections as the loop of [find_particle_dependencies] builds
    them over a list of requested sockets, written as folds. *)
Definition collected_sockets (data_graph : VTreeDataGraph) (requested : list DataSocket)
  : list DataSocket :=
  foldl (λ collected socket,
           SetVector_add_multiple collected
             (find_placeholder_dependencies data_graph socket).*1)
        [] requested.

Definition collected_vsockets (data_graph : VTreeDataGraph) (requested : list DataSocket)
  : list VirtualSocket :=
  foldl (λ collected socket,
           SetVector_add_multiple collected
             (find_placeholder_dependencies data_graph socket).*2)
        [] requested.

(** What a run of the loop of [find_particle_dependencies] that returned
    after [count] rounds has done, on any graph. *)
Definition accumulated (data_graph : VTreeDataGraph) (sockets_to_compute : list DataSocket)
    (flags : list bool) (count : nat) (state : DependencyState) : Prop :=
  sockets state.1 = collected_sockets data_graph (take count sockets_to_compute)
  ∧ vsockets state.1 = collected_vsockets data_graph (take count sockets_to_compute)
  ∧ count ≤ length sockets_to_compute
  ∧ count ≤ length flags
  ∧ length state.2 = length flags
  ∧ (∀ j socket, j < count → sockets_to_compute !! j = Some socket →
       state.2 !! j
       = Some (bool_decide (find_placeholder_dependencies data_graph socket ≠ [])))
  ∧ (∀ j, count ≤ j → state.2 !! j = flags !! j).

(** The interface of the same evaluation for another list of indices. *)
Definition with_pindices {float : Type} (interface : InputProviderInterface float)
    (indices : list nat) : InputProviderInterface float :=
  {| particles := {| attributes := attributes (particles interface);
                     pindices := indices |};
     particle_times := particle_times interface;
     action_context := action_context interface;
     array_allocator := array_allocator interface |}.

(** ** A small node tree to run the functions on

    A node "Change Color" with the inputs "Color" and "Size" and an input
    that has no socket in the graph.  "Color" is computed from the age of
    the particle and the normal of the collision, "Size" is a constant. *)
Module Example.
Definition particle_info : VirtualNode :=
  {| vnode_idname := "bp_ParticleInfoNode"; vnode_name := "Particle Info" |}.
Definition collision_info : VirtualNode :=
  {| vnode_idname := "bp_CollisionInfoNode"; vnode_name := "Collision Info" |}.
Definition change_color : VirtualNode :=
  {| vnode_idname := "bp_ChangeParticleColorNode"; vnode_name := "Change Color" |}.
Definition emitter : VirtualNode :=
  {| vnode_idname := "bp_PointEmitterNode"; vnode_name := "Point Emitter" |}.

Definition age : VirtualSocket :=
  {| vsocket_address := 1; vsocket_name := "Age"; vsocket_vnode := particle_info |}.
Definition velocity : VirtualSocket :=
  {| vsocket_address := 2; vsocket_name := "Velocity"; vsocket_vnode := particle_info |}.
Definition normal : VirtualSocket :=
  {| vsocket_address := 3; vsocket_name := "Normal"; vsocket_vnode := collision_info |}.
Definition color : VirtualSocket :=
  {| vsocket_address := 4; vsocket_name := "Color"; vsocket_vnode := change_color |}.
Definition size : VirtualSocket :=
  {| vsocket_address := 5; vsocket_name := "Size"; vsocket_vnode := change_color |}.
Definition unlinked : VirtualSocket :=
  {| vsocket_address := 6; vsocket_name := "Execute"; vsocket_vnode := change_color |}.
Definition rate : VirtualSocket :=
  {| vsocket_address := 7; vsocket_name := "Rate"; vsocket_vnode := emitter |}.

Definition color_socket : DataSocket := {| socket_is_output := false; socket_id := 0 |}.
Definition size_socket : DataSocket := {| socket_is_output := false; socket_id := 1 |}.
Definition age_socket : DataSocket := {| socket_is_output := true; socket_id := 10 |}.
Definition normal_socket : DataSocket := {| socket_is_output := true; socket_id := 11 |}.

Definition data_graph : VTreeDataGraph :=
  {| vnode_inputs := λ vnode,
       if decide (vnode = change_color) then [color; unlinked; size] else [];
     lookup_socket_ptr := λ vsocket,
       if decide (vsocket = color) then Some color_socket
       else if decide (vsocket = size) then Some size_socket
       else None;
     find_placeholder_dependencies := λ socket,
       if decide (socket = color_socket)
       then [(age_socket, age); (normal_socket, normal)]
       else [] |}.

Definition requested : list DataSocket := [color_socket; size_socket].

(** A batch of the particles 2 and 0 out of four, with integers standing
    in for the floats. *)
Definition attribute_columns : list (AttributeColumn Z) :=
  [ {| attribute_name := "Position"; attribute_stride := 12; attribute_floats := None |};
    {| attribute_name := "Birth Time"; attribute_stride := 4;
       attribute_floats := Some [0; 2; 1; 4]%Z |} ].

Definition interface (times : ParticleTimes Z) (context : option (ActionContext Z))
  : InputProviderInterface Z :=
  {| particles := {| attributes := attribute_columns; pindices := [2; 0] |};
     particle_times := times;
     action_context := context;
     array_allocator := {| array_size := 4; arena := []; uninitialized := λ _, (-1)%Z |} |}.


(** A graph in which the emitter has the one input "Rate", which has a
    socket and depends on no placeholder. *)
Definition constant_graph : VTreeDataGraph :=
  {| vnode_inputs := λ vnode, if decide (vnode = emitter) then [rate] else [];
     lookup_socket_ptr := λ vsocket,
       if decide (vsocket = rate) then Some size_socket else None;
     find_placeholder_dependencies := λ _, [] |}.
End Example.

(** * Proofs *)

(** ** Outcomes and loops *)

Lemma bind_Ret_inv {A B : Type} (m : Outcome A) (f : A → Outcome B) (b : B) :
  m ≫= f = Ret b → ∃ a, m = Ret a ∧ f a = Ret b.
Proof. destruct m as [a| |]; simpl; [eauto | done | done]. Qed.

Lemma BLI_assert_true (mode : AssertMode) : BLI_assert mode true = Ret ().
Proof. done. Qed.

Lemma BLI_assert_Ret_inv (mode : AssertMode) (condition : bool) (u : unit) :
  BLI_assert mode condition = Ret u → mode = AssertIgnore ∨ condition = true.
Proof. destruct condition, mode; simpl; intros; eauto; done. Qed.

Lemma out_of_range_not_Ret {A : Type} (mode : AssertMode) (a : A) :
  out_of_range mode ≠ Ret a.
Proof. by destruct mode. Qed.

Lemma array_get_Ret {A : Type} (mode : AssertMode) (array : list A) (i : nat) (x : A) :
  array_get mode array i = Ret x ↔ array !! i = Some x.
Proof.
  unfold array_get. destruct (array !! i) as [y|]; split; intros H.
  - by injection H as ->.
  - by injection H as ->.
  - by apply out_of_range_not_Ret in H.
  - done.
Qed.

Lemma array_set_Ret {A : Type} (mode : AssertMode) (array array' : list A) (i : nat) (x : A) :
  array_set mode array i x = Ret array' ↔ i < length array ∧ array' = <[i := x]> array.
Proof.
  unfold array_set. case_decide; split.
  - intros [= <-]. done.
  - intros [_ ->]. done.
  - intros H'. by apply out_of_range_not_Ret in H'.
  - intros [? _]. lia.
Qed.

Lemma for_range_snoc {State : Type} (body : nat → State → Outcome State)
    (start count : nat) (state : State) :
  for_range body start (S count) state
  = for_range body start count state ≫= body (start + count).
Proof.
  revert start state. induction count as [|count IH]; intros start state.
  - simpl. rewrite Nat.add_0_r. by destruct (body start state).
  - change (for_range body start (S (S count)) state)
      with (body start state ≫= for_range body (S start) (S count)).
    change (for_range body start (S count) state)
      with (body start state ≫= for_range body (S start) count).
    destruct (body start state) as [state'| |]; [|done|done].
    change (for_range body (S start) (S count) state'
            = for_range body (S start) count state' ≫= body (start + S count)).
    rewrite IH. by replace (S start + count) with (start + S count) by lia.
Qed.

(** A loop returns, and keeps an invariant, when every round does. *)
Lemma for_range_total {State : Type} (body : nat → State → Outcome State)
    (Inv : nat → State → Prop) (count : nat) (state : State) :
  Inv 0 state →
  (∀ i s, i < count → Inv i s → ∃ s', body i s = Ret s' ∧ Inv (S i) s') →
  ∃ state', for_range body 0 count state = Ret state' ∧ Inv count state'.
Proof.
  intros Hinit Hstep. induction count as [|count IH].
  - exists state. done.
  - destruct IH as (s & Hs & Hinv).
    { intros i s' Hi. apply Hstep. lia. }
    destruct (Hstep count s) as (s' & Hbody & Hinv'); [lia | done |].
    exists s'. rewrite for_range_snoc, Hs. done.
Qed.

(** What a loop that returned went through. *)
Lemma for_range_returned {State : Type} (body : nat → State → Outcome State)
    (Inv : nat → State → Prop) (count : nat) (state state' : State) :
  for_range body 0 count state = Ret state' →
  Inv 0 state →
  (∀ i s s', i < count → Inv i s → body i s = Ret s' → Inv (S i) s') →
  Inv count state'.
Proof.
  revert state'. induction count as [|count IH]; intros state' Hrun Hinit Hstep.
  - injection Hrun as <-. done.
  - rewrite for_range_snoc in Hrun.
    apply bind_Ret_inv in Hrun as (s & Hs & Hbody).
    apply (Hstep count s); [lia | | done].
    apply IH; [done | done |]. intros i s1 s2 Hi. apply Hstep. lia.
Qed.

(** ** Set vectors and the dependency analysis *)

Lemma origin_one_to_one_elem (pairs : list (DataSocket * VirtualSocket)) :
  origin_one_to_one pairs
  ↔ ∀ p q, p ∈ pairs → q ∈ pairs → (p.1 = q.1 ↔ p.2 = q.2).
Proof.
  unfold origin_one_to_one. rewrite Forall_forall. split.
  - intros H p q Hp Hq. specialize (H p Hp). rewrite Forall_forall in H. by apply H.
  - intros H p Hp. rewrite Forall_forall. intros q Hq. by apply H.
Qed.

Lemma origin_one_to_one_subseteq (pairs pairs' : list (DataSocket * VirtualSocket)) :
  (∀ p, p ∈ pairs' → p ∈ pairs) → origin_one_to_one pairs → origin_one_to_one pairs'.
Proof. rewrite !origin_one_to_one_elem. intros Hsub H p q Hp Hq. apply H; auto. Qed.

Lemma reported_pairs_take (data_graph : VTreeDataGraph) (requested : list DataSocket)
    (count : nat) (p : DataSocket * VirtualSocket) :
  p ∈ reported_pairs data_graph (take count requested)
  ↔ ∃ j socket, j < count ∧ requested !! j = Some socket
                ∧ p ∈ find_placeholder_dependencies data_graph socket.
Proof.
  unfold reported_pairs. rewrite list_elem_of_bind. split.
  - intros (socket & Hp & Hin). apply elem_of_take in Hin as (j & Hj & Hlt). eauto.
  - intros (j & socket & Hlt & Hj & Hp). exists socket. split; [done|].
    apply elem_of_take. eauto.
Qed.

Lemma reported_pairs_take_all (data_graph : VTreeDataGraph) (requested : list DataSocket)
    (count : nat) (p : DataSocket * VirtualSocket) :
  p ∈ reported_pairs data_graph (take count requested) →
  p ∈ reported_pairs data_graph requested.
Proof.
  rewrite reported_pairs_take. intros (j & socket & _ & Hj & Hp).
  unfold reported_pairs. rewrite list_elem_of_bind. exists socket.
  split; [done|]. by eapply list_elem_of_lookup_2.
Qed.

(** Adding the two columns of a list of pairs to the two columns of another
    keeps them the columns of one list, as long as the pairs are one to one. *)
Lemma SetVector_add_multiple_pairs (new old : list (DataSocket * VirtualSocket)) :
  origin_one_to_one (old ++ new) →
  NoDup old.*1 → NoDup old.*2 →
  ∃ pairs, SetVector_add_multiple old.*1 new.*1 = pairs.*1
           ∧ SetVector_add_multiple old.*2 new.*2 = pairs.*2
           ∧ NoDup pairs.*1 ∧ NoDup pairs.*2
           ∧ ∀ p, p ∈ pairs → p ∈ old ++ new.
Proof.
  revert old. induction new as [|q new IH]; intros old Hone Hnd1 Hnd2.
  - exists old. rewrite app_nil_r. done.
  - assert (Hq : q.1 ∈ old.*1 ↔ q.2 ∈ old.*2).
    { rewrite origin_one_to_one_elem in Hone.
      assert (q ∈ old ++ q :: new) by (apply elem_of_app; right; left).
      rewrite !list_elem_of_fmap. split; intros (p & Heq & Hp).
      - exists p. split; [|done]. apply (Hone q p); [done| |done].
        apply elem_of_app. by left.
      - exists p. split; [|done]. apply (Hone q p); [done| |done].
        apply elem_of_app. by left. }
    unfold SetVector_add_multiple. simpl. unfold SetVector_add at 2 4.
    destruct (decide (q.1 ∈ old.*1)) as [Hin|Hnin].
    + rewrite decide_True by tauto.
      destruct (IH old) as (pairs & H1 & H2 & Hn1 & Hn2 & Hsub); [|done|done|].
      { revert Hone. apply origin_one_to_one_subseteq. intros p.
        rewrite !elem_of_app, elem_of_cons. tauto. }
      exists pairs. repeat split; try done.
      intros p Hp. apply Hsub in Hp. revert Hp.
      rewrite !elem_of_app, elem_of_cons. tauto.
    + rewrite decide_False by tauto.
      destruct (IH (old ++ [q])) as (pairs & H1 & H2 & Hn1 & Hn2 & Hsub).
      { by rewrite <- app_assoc. }
      { rewrite fmap_app. apply NoDup_app. repeat split; [done| |apply NoDup_singleton].
        intros x Hx ->%list_elem_of_singleton. done. }
      { rewrite fmap_app. apply NoDup_app. repeat split; [done| |apply NoDup_singleton].
        intros x Hx ->%list_elem_of_singleton. tauto. }
      exists pairs. rewrite fmap_app in H1. rewrite fmap_app in H2.
      repeat split; try done.
      intros p Hp. apply Hsub in Hp. by rewrite <- app_assoc in Hp.
Qed.

(** One round of the loop, for a graph that is one to one. *)
Lemma find_particle_dependencies_body_analysed (mode : AssertMode)
    (data_graph : VTreeDataGraph) (sockets_to_compute : list DataSocket)
    (i : nat) (state : DependencyState) :
  origin_one_to_one (reported_pairs data_graph sockets_to_compute) →
  i < length sockets_to_compute →
  analysed data_graph sockets_to_compute i state →
  ∃ state', find_particle_dependencies_body mode data_graph sockets_to_compute i state
            = Ret state'
            ∧ analysed data_graph sockets_to_compute (S i) state'.
Proof.
  intros Hone Hi. destruct state as [combined flags].
  intros (Hlen & Hflags & pairs & Hs & Hv & Hn1 & Hn2 & Hsub). simpl in *.
  destruct (lookup_lt_is_Some_2 sockets_to_compute i Hi) as [socket Hsocket].
  unfold find_particle_dependencies_body.
  rewrite (proj2 (array_get_Ret mode _ _ _) Hsocket). simpl.
  unfold array_set. rewrite decide_True by lia. simpl.
  set (dependencies := find_placeholder_dependencies data_graph socket).
  destruct (SetVector_add_multiple_pairs dependencies pairs)
    as (pairs' & H1 & H2 & Hn1' & Hn2' & Hsub'); [|done|done|].
  { revert Hone. apply origin_one_to_one_subseteq. intros p.
    rewrite elem_of_app. intros [Hp|Hp].
    - by eapply reported_pairs_take_all, Hsub.
    - unfold reported_pairs. rewrite list_elem_of_bind. exists socket.
      split; [done|]. by eapply list_elem_of_lookup_2. }
  rewrite Hs, Hv, H1, H2, !length_fmap.
  rewrite (bool_decide_eq_true_2 (length pairs' = length pairs')) by done. simpl.
  eexists. split; [done|]. repeat split; simpl.
  - by rewrite length_insert.
  - intros j socket' Hj Hsocket'. destruct (decide (j = i)) as [->|Hne].
    + rewrite list_lookup_insert_eq by lia. f_equal.
      assert (socket' = socket) as -> by congruence.
      fold dependencies. by destruct dependencies.
    + rewrite list_lookup_insert_ne by done. apply Hflags; [lia|done].
  - exists pairs'. repeat split; try done.
    intros p Hp. apply reported_pairs_take. apply Hsub' in Hp.
    apply elem_of_app in Hp as [Hp|Hp].
    + apply Hsub, reported_pairs_take in Hp as (j & s' & ? & ? & ?).
      exists j, s'. repeat split; [lia|done|done].
    + exists i, socket. repeat split; [lia|done|done].
Qed.

(** The loop returns after any number of rounds, with an analysed state. *)
Lemma find_particle_dependencies_upto_analysed (mode : AssertMode)
    (data_graph : VTreeDataGraph) (sockets_to_compute : list DataSocket)
    (flags : list bool) (count : nat) :
  origin_one_to_one (reported_pairs data_graph sockets_to_compute) →
  length flags = length sockets_to_compute →
  count ≤ length sockets_to_compute →
  ∃ state, find_particle_dependencies_upto mode data_graph sockets_to_compute flags count
           = Ret state
           ∧ analysed data_graph sockets_to_compute count state.
Proof.
  intros Hone Hlen Hcount. unfold find_particle_dependencies_upto.
  apply (for_range_total _ (analysed data_graph sockets_to_compute)).
  - repeat split; simpl; [done|lia|]. exists []. repeat split; try constructor.
    intros p Hp. by apply elem_of_nil in Hp.
  - intros i s Hi Hs. apply find_particle_dependencies_body_analysed; [done|lia|done].
Qed.




(** C5: the analysis sets the flag of the i-th requested socket to true
    exactly when the graph reports at least one placeholder dependency for
    that socket itself. *)
Theorem flag_iff_own_dependencies (mode : AssertMode) (data_graph : VTreeDataGraph)
    (sockets_to_compute : list DataSocket) (flags : list bool) :
  origin_one_to_one (reported_pairs data_graph sockets_to_compute) →
  length flags = length sockets_to_compute →
  ∃ combined flags',
    find_particle_dependencies mode data_graph sockets_to_compute flags
    = Ret (combined, flags')
    ∧ length flags' = length sockets_to_compute
    ∧ ∀ i socket, sockets_to_compute !! i = Some socket →
        ∃ flag, flags' !! i = Some flag
                ∧ (flag = true ↔ find_placeholder_dependencies data_graph socket ≠ []).
Proof.
  intros Hone Hlen.
  destruct (find_particle_dependencies_upto_analysed mode data_graph sockets_to_compute
              flags (length sockets_to_compute) Hone Hlen (le_n _))
    as ([combined flags'] & Hrun & Hlen' & Hflags & _).
  simpl in *. exists combined, flags'. repeat split; [done|done|].
  intros i socket Hi. eexists. split.
  - apply Hflags; [|done]. by eapply lookup_lt_Some.
  - apply bool_decide_eq_true.
Qed.

Lemma flag_iff_own_dependencies_witness :
  ∃ combined flags',
    find_particle_dependencies AssertAbort Example.data_graph Example.requested
      [false; false]
    = Ret (combined, flags')
    ∧ length flags' = length Example.requested
    ∧ ∀ i socket, Example.requested !! i = Some socket →
        ∃ flag, flags' !! i = Some flag
                ∧ (flag = true
                   ↔ find_placeholder_dependencies Example.data_graph socket ≠ []).
Proof.
  apply (flag_iff_own_dependencies AssertAbort Example.data_graph Example.requested
           [false; false]).
  - unfold origin_one_to_one. vm_compute reported_pairs.
    repeat constructor; simpl; intros; congruence.
  - reflexivity.
Defined.

(** ** The provider factory *)

(** C1 (as the code has it): the factory chooses the provider by the kind
    of the owning node and the name of the input.  A particle info node
    gives the age provider for "Age" and an attribute provider holding the
    name for every other input, a collision info node gives the collision
    normal provider.  Every other kind fails the assertion: that stops the
    process where assertions abort, and returns the null pointer where
    they are compiled out. *)
Theorem create_input_provider_dispatch (mode : AssertMode) (vsocket : VirtualSocket) :
  let kind := vnode_idname (vsocket_vnode vsocket) in
  let name := vsocket_name vsocket in
  (kind = "bp_ParticleInfoNode" → name = "Age" →
   create_input_provider mode vsocket = Ret (Some AgeInputProvider))
  ∧ (kind = "bp_ParticleInfoNode" → name ≠ "Age" →
     create_input_provider mode vsocket = Ret (Some (AttributeInputProvider name)))
  ∧ (kind = "bp_CollisionInfoNode" →
     create_input_provider mode vsocket = Ret (Some CollisionNormalInputProvider))
  ∧ (kind ≠ "bp_ParticleInfoNode" → kind ≠ "bp_CollisionInfoNode" →
     create_input_provider mode vsocket
     = match mode with AssertAbort => Abort | AssertIgnore => Ret None end).
Proof.
  unfold create_input_provider, STREQ. repeat split.
  - intros -> ->. done.
  - intros -> Hname. by rewrite bool_decide_eq_true_2, bool_decide_eq_false_2.
  - intros ->. done.
  - intros H1 H2. rewrite !bool_decide_eq_false_2 by done. by destruct mode.
Qed.

Lemma create_input_provider_dispatch_witness :
  create_input_provider AssertAbort Example.age = Ret (Some AgeInputProvider)
  ∧ create_input_provider AssertAbort Example.velocity
    = Ret (Some (AttributeInputProvider "Velocity"))
  ∧ create_input_provider AssertAbort Example.normal
    = Ret (Some CollisionNormalInputProvider)
  ∧ create_input_provider AssertAbort Example.rate = Abort.
Proof.
  split; [|split; [|split]].
  - apply (create_input_provider_dispatch AssertAbort Example.age); reflexivity.
  - apply (create_input_provider_dispatch AssertAbort Example.velocity);
      [reflexivity | discriminate].
  - apply (create_input_provider_dispatch AssertAbort Example.normal); reflexivity.
  - apply (create_input_provider_dispatch AssertAbort Example.rate); discriminate.
Defined.

(** C1 as the spec words it fails: with assertions compiled out, a socket of
    a node the factory does not know is answered with the null pointer, and
    nothing stops. *)
Lemma unsupported_kind_returns_null :
  ¬ supported Example.rate
  ∧ create_input_provider AssertIgnore Example.rate = Ret None
  ∧ create_input_provider AssertIgnore Example.rate ≠ Abort.
Proof.
  split; [|split].
  - intros [H|H]; discriminate H.
  - reflexivity.
  - discriminate.
Qed.

(** ** The partition of the requested sockets *)

Lemma partition_sockets_filter (mode : AssertMode) (sockets_to_compute : list DataSocket)
    (flags : list bool) :
  length flags = length sockets_to_compute →
  partition_sockets mode sockets_to_compute flags
  = Ret ((filter (λ p, p.2 = true) (zip sockets_to_compute flags)).*1,
         (filter (λ p, p.2 = false) (zip sockets_to_compute flags)).*1).
Proof.
  intros Hlen. unfold partition_sockets.
  set (pairs := zip sockets_to_compute flags).
  destruct (for_range_total
              (partition_sockets_body mode sockets_to_compute flags)
              (λ i state, state = ((filter (λ p, p.2 = true) (take i pairs)).*1,
                                   (filter (λ p, p.2 = false) (take i pairs)).*1))
              (length sockets_to_compute) ([], [])) as (state & Hrun & ->).
  - done.
  - intros i s Hi ->.
    destruct (lookup_lt_is_Some_2 sockets_to_compute i Hi) as [socket Hsocket].
    destruct (lookup_lt_is_Some_2 flags i ltac:(lia)) as [flag Hflag].
    assert (Hpair : pairs !! i = Some (socket, flag)).
    { unfold pairs. rewrite lookup_zip_with, Hsocket. simpl. by rewrite Hflag. }
    unfold partition_sockets_body.
    rewrite (proj2 (array_get_Ret mode _ _ _) Hflag). simpl.
    rewrite (proj2 (array_get_Ret mode _ _ _) Hsocket). simpl.
    rewrite (take_S_r _ _ _ Hpair), !filter_app, !fmap_app.
    destruct flag; eexists; (split; [done|]).
    + rewrite (filter_cons_True (λ p, p.2 = true)) by done.
      rewrite (filter_cons_False (λ p, p.2 = false)) by done.
      simpl. by rewrite app_nil_r.
    + rewrite (filter_cons_False (λ p, p.2 = true)) by done.
      rewrite (filter_cons_True (λ p, p.2 = false)) by done.
      simpl. by rewrite app_nil_r.
  - rewrite Hrun. rewrite take_ge; [done|].
    unfold pairs. rewrite length_zip_with. lia.
Qed.

Lemma merge_by_flags_filter {A : Type} (values : list A) (flags : list bool) :
  length flags = length values →
  merge_by_flags flags (filter (λ p, p.2 = true) (zip values flags)).*1
                       (filter (λ p, p.2 = false) (zip values flags)).*1
  = values.
Proof.
  revert flags. induction values as [|x values IH]; intros [|flag flags] Hlen;
    try done.
  injection Hlen as Hlen. specialize (IH flags Hlen).
  change (zip (x :: values) (flag :: flags)) with ((x, flag) :: zip values flags).
  destruct flag.
  - rewrite (filter_cons_True (λ p, p.2 = true)) by done.
    rewrite (filter_cons_False (λ p, p.2 = false)) by done.
    simpl. by f_equal.
  - rewrite (filter_cons_False (λ p, p.2 = true)) by done.
    rewrite (filter_cons_True (λ p, p.2 = false)) by done.
    simpl. by f_equal.
Qed.

Lemma filter_zip_sublist {A : Type} (P : A * bool → Prop) `{∀ p, Decision (P p)}
    (values : list A) (flags : list bool) :
  (filter P (zip values flags)).*1 `sublist_of` values.
Proof.
  revert flags. induction values as [|x values IH]; intros [|flag flags];
    try apply sublist_nil_l.
  change (zip (x :: values) (flag :: flags)) with ((x, flag) :: zip values flags).
  rewrite filter_cons. case_decide; simpl.
  - apply sublist_skip, IH.
  - apply sublist_cons, IH.
Qed.

Lemma filter_zip_length {A : Type} (values : list A) (flags : list bool) :
  length flags = length values →
  length (filter (λ p, p.2 = true) (zip values flags)).*1
  + length (filter (λ p, p.2 = false) (zip values flags)).*1
  = length values.
Proof.
  revert flags. induction values as [|x values IH]; intros [|flag flags] Hlen;
    try done.
  injection Hlen as Hlen. specialize (IH flags Hlen).
  change (zip (x :: values) (flag :: flags)) with ((x, flag) :: zip values flags).
  destruct flag.
  - rewrite (filter_cons_True (λ p, p.2 = true)) by done.
    rewrite (filter_cons_False (λ p, p.2 = false)) by done.
    simpl. rewrite ?length_fmap in *. simpl. lia.
  - rewrite (filter_cons_False (λ p, p.2 = true)) by done.
    rewrite (filter_cons_True (λ p, p.2 = false)) by done.
    simpl. rewrite ?length_fmap in *. simpl. lia.
Qed.

Lemma filter_zip_elem {A : Type} (values : list A) (flags : list bool) (flag : bool)
    (x : A) :
  x ∈ (filter (λ p, p.2 = flag) (zip values flags)).*1 →
  ∃ i, values !! i = Some x ∧ flags !! i = Some flag.
Proof.
  rewrite list_elem_of_fmap. intros ([y f] & -> & Hin).
  apply list_elem_of_filter in Hin as [Hf Hin]. simpl in *. subst f.
  apply list_elem_of_lookup_1 in Hin as [i Hi]. exists i.
  rewrite lookup_zip_with in Hi.
  destruct (values !! i) as [y'|]; simpl in Hi; [|done].
  destruct (flags !! i) as [f'|]; simpl in Hi; [|done].
  by injection Hi as -> ->.
Qed.

(** C3: the partition keeps the order of the requested sockets in both
    lists, sends every position to exactly one of them, puts no socket into
    both as long as the flag array gives equal sockets equal flags, and the
    merge along the flags gives the requested list back. *)
Theorem partition_stable_disjoint_roundtrip (mode : AssertMode)
    (sockets_to_compute : list DataSocket) (flags : list bool) :
  length flags = length sockets_to_compute →
  ∃ sockets_with_deps sockets_without_deps,
    partition_sockets mode sockets_to_compute flags
    = Ret (sockets_with_deps, sockets_without_deps)
    ∧ sockets_with_deps = (filter (λ p, p.2 = true) (zip sockets_to_compute flags)).*1
    ∧ sockets_without_deps = (filter (λ p, p.2 = false) (zip sockets_to_compute flags)).*1
    ∧ sockets_with_deps `sublist_of` sockets_to_compute
    ∧ sockets_without_deps `sublist_of` sockets_to_compute
    ∧ length sockets_with_deps + length sockets_without_deps = length sockets_to_compute
    ∧ (∀ socket,
         (∀ i j, sockets_to_compute !! i = Some socket →
                 sockets_to_compute !! j = Some socket → flags !! i = flags !! j) →
         ¬ (socket ∈ sockets_with_deps ∧ socket ∈ sockets_without_deps))
    ∧ merge_by_flags flags sockets_with_deps sockets_without_deps = sockets_to_compute.
Proof.
  intros Hlen. eexists _, _. split; [by apply partition_sockets_filter|].
  repeat split.
  - apply filter_zip_sublist.
  - apply filter_zip_sublist.
  - by apply filter_zip_length.
  - intros socket Hsame [Hw Hwo].
    apply filter_zip_elem in Hw as (i & Hi & Hfi).
    apply filter_zip_elem in Hwo as (j & Hj & Hfj).
    specialize (Hsame i j Hi Hj). congruence.
  - by apply merge_by_flags_filter.
Qed.

Lemma partition_stable_disjoint_roundtrip_witness :
  partition_sockets AssertAbort Example.requested [true; false]
  = Ret ([Example.color_socket], [Example.size_socket])
  ∧ merge_by_flags [true; false] [Example.color_socket] [Example.size_socket]
    = Example.requested.
Proof.
  destruct (partition_stable_disjoint_roundtrip AssertAbort Example.requested
              [true; false] eq_refl)
    as (w & wo & Hrun & -> & -> & _ & _ & _ & _ & Hmerge).
  split; [exact Hrun | exact Hmerge].
Defined.

(** ** The two functions and their providers *)

Lemma create_input_provider_supported (mode : AssertMode) (vsocket : VirtualSocket) :
  supported vsocket →
  ∃ provider, create_input_provider mode vsocket = Ret (Some provider).
Proof.
  unfold supported, create_input_provider, STREQ. intros [H|H]; rewrite H; simpl.
  - case_bool_decide; eauto.
  - eauto.
Qed.

Lemma create_function__with_deps_returned (mode : AssertMode) (function_name : string)
    (sockets_to_compute : list DataSocket) (dependencies : SocketDependencies)
    (r_input_providers providers : list (option ParticleFunctionInputProvider))
    (fn : SharedFunction) :
  length r_input_providers = length (sockets dependencies) →
  create_function__with_deps mode function_name sockets_to_compute dependencies
    r_input_providers = Ret (fn, providers) →
  fn = function_with_deps function_name sockets_to_compute dependencies
  ∧ length providers = length (sockets dependencies)
  ∧ ∀ i, i < length (sockets dependencies) →
      ∃ vsocket provider,
        vsockets dependencies !! i = Some vsocket
        ∧ providers !! i = Some provider
        ∧ create_input_provider mode vsocket = Ret provider.
Proof.
  intros Hlen Hrun. unfold create_function__with_deps in Hrun.
  apply bind_Ret_inv in Hrun as (_ & _ & Hrun).
  apply bind_Ret_inv in Hrun as (ps & Hloop & Hret).
  injection Hret as <- <-. split; [done|].
  apply (for_range_returned _
           (λ i ps, length ps = length (sockets dependencies)
                    ∧ ∀ j, j < i →
                        ∃ vsocket provider,
                          vsockets dependencies !! j = Some vsocket
                          ∧ ps !! j = Some provider
                          ∧ create_input_provider mode vsocket = Ret provider))
    in Hloop; [done| |].
  - split; [done|]. intros j Hj. lia.
  - intros i s s' Hi [Hs Hdone] Hbody. unfold create_function__with_deps_body in Hbody.
    apply bind_Ret_inv in Hbody as (vsocket & Hvsocket%array_get_Ret & Hbody).
    apply bind_Ret_inv in Hbody as (provider & Hprovider & Hset).
    apply array_set_Ret in Hset as [Hlt ->]. split; [by rewrite length_insert|].
    intros j Hj. destruct (decide (j = i)) as [->|Hne].
    + exists vsocket, provider. by rewrite list_lookup_insert_eq.
    + destruct (Hdone j) as (v & p & ? & ? & ?); [lia|].
      exists v, p. by rewrite list_lookup_insert_ne.
Qed.

Lemma create_function__with_deps_total (mode : AssertMode) (function_name : string)
    (sockets_to_compute : list DataSocket) (dependencies : SocketDependencies)
    (r_input_providers : list (option ParticleFunctionInputProvider)) :
  length r_input_providers = length (sockets dependencies) →
  length (vsockets dependencies) = length (sockets dependencies) →
  Forall supported (vsockets dependencies) →
  ∃ fn providers,
    create_function__with_deps mode function_name sockets_to_compute dependencies
      r_input_providers = Ret (fn, providers).
Proof.
  intros Hlen Hsame Hsupported. unfold create_function__with_deps.
  rewrite bool_decide_eq_true_2 by done. simpl.
  destruct (for_range_total (create_function__with_deps_body mode dependencies)
              (λ _ ps, length ps = length (sockets dependencies))
              (length (sockets dependencies)) r_input_providers)
    as (ps & -> & _).
  - done.
  - intros i ps Hi Hps. unfold create_function__with_deps_body.
    destruct (lookup_lt_is_Some_2 (vsockets dependencies) i ltac:(lia))
      as [vsocket Hvsocket].
    rewrite (proj2 (array_get_Ret mode _ _ _) Hvsocket). simpl.
    destruct (create_input_provider_supported mode vsocket) as (provider & ->).
    { rewrite Forall_forall in Hsupported. by eapply Hsupported, list_elem_of_lookup_2. }
    simpl. unfold array_set. rewrite decide_True by lia.
    eexists. split; [done|]. by rewrite length_insert.
  - simpl. eauto.
Qed.

Lemma create_particle_function_from_sockets_returned (mode : AssertMode) (name : string)
    (sockets_to_compute : list DataSocket) (flags : list bool)
    (dependencies : SocketDependencies) (result : ValueOrError (option ParticleFunction)) :
  create_particle_function_from_sockets mode name sockets_to_compute flags dependencies
  = Ret result →
  ∃ sockets_with_deps sockets_without_deps fn providers,
    partition_sockets mode sockets_to_compute flags
    = Ret (sockets_with_deps, sockets_without_deps)
    ∧ create_function__with_deps mode name sockets_with_deps dependencies
        (replicate (length (sockets dependencies)) None) = Ret (fn, providers)
    ∧ result = Value (Some {| fn_without_deps :=
                                create_function__without_deps name sockets_without_deps;
                              fn_with_deps := fn;
                              input_providers := providers;
                              depends_on_particle_flags := flags |}).
Proof.
  unfold create_particle_function_from_sockets. intros Hrun.
  apply bind_Ret_inv in Hrun as ([w wo] & Hpart & Hrun).
  apply bind_Ret_inv in Hrun as ([fn providers] & Hfn & Hret).
  injection Hret as <-. by exists w, wo, fn, providers.
Qed.

(** C7: a particle function that was constructed has one provider for every
    element of the dependency set, the provider at an index is the one the
    factory made for the virtual socket at that index, and the inputs of
    the function with dependencies are the sockets of the set in the same
    order. *)
Theorem providers_index_aligned (mode : AssertMode) (name : string)
    (sockets_to_compute : list DataSocket) (flags : list bool)
    (dependencies : SocketDependencies) (particle_fn : ParticleFunction) :
  create_particle_function_from_sockets mode name sockets_to_compute flags dependencies
  = Ret (Value (Some particle_fn)) →
  length (input_providers particle_fn) = length (sockets dependencies)
  ∧ fn_inputs (fn_with_deps particle_fn) = sockets dependencies
  ∧ ∀ i, i < length (sockets dependencies) →
      ∃ vsocket provider,
        vsockets dependencies !! i = Some vsocket
        ∧ input_providers particle_fn !! i = Some provider
        ∧ create_input_provider mode vsocket = Ret provider.
Proof.
  intros Hrun.
  apply create_particle_function_from_sockets_returned in Hrun
    as (w & wo & fn & providers & _ & Hfn & [= ->]).
  apply create_function__with_deps_returned in Hfn as (-> & Hlen & Hproviders);
    [|by rewrite length_replicate].
  done.
Qed.

Lemma providers_index_aligned_witness :
  ∃ particle_fn,
    create_particle_function AssertAbort Example.change_color Example.data_graph
    = Ret (Value (Some particle_fn))
    ∧ length (input_providers particle_fn) = 2
    ∧ ∀ i, i < 2 →
        ∃ vsocket provider,
          [Example.age; Example.normal] !! i = Some vsocket
          ∧ input_providers particle_fn !! i = Some provider
          ∧ create_input_provider AssertAbort vsocket = Ret provider.
Proof.
  eexists. split; [vm_compute; reflexivity|].
  pose proof (providers_index_aligned AssertAbort "Change Color Inputs"
                Example.requested [true; false]
                {| sockets := [Example.age_socket; Example.normal_socket];
                   vsockets := [Example.age; Example.normal] |} _ eq_refl)
    as (Hlen & _ & Hproviders).
  split; [exact Hlen | exact Hproviders].
Defined.

(** C10: the function without dependencies gets the interpreted body and no
    other, and the function with dependencies gets the interpreted body and
    the body that builds LLVM IR, both over the same function graph. *)
Theorem execution_strategies (mode : AssertMode) (function_name : string)
    (sockets_with_deps sockets_without_deps : list DataSocket)
    (dependencies : SocketDependencies)
    (r_input_providers : list (option ParticleFunctionInputProvider)) :
  fn_bodies (create_function__without_deps function_name sockets_without_deps)
  = [TupleCallBody {| fgraph_inputs := []; fgraph_outputs := sockets_without_deps |}]
  ∧ ∀ fn providers,
      create_function__with_deps mode function_name sockets_with_deps dependencies
        r_input_providers = Ret (fn, providers) →
      fn_bodies fn
      = [TupleCallBody {| fgraph_inputs := sockets dependencies;
                          fgraph_outputs := sockets_with_deps |};
         LLVMBuildIRBody {| fgraph_inputs := sockets dependencies;
                            fgraph_outputs := sockets_with_deps |}].
Proof.
  split; [done|]. intros fn providers Hrun.
  unfold create_function__with_deps in Hrun.
  apply bind_Ret_inv in Hrun as (_ & _ & Hrun).
  apply bind_Ret_inv in Hrun as (ps & _ & Hret).
  by injection Hret as <- <-.
Qed.

Lemma execution_strategies_witness :
  let dependencies := {| sockets := [Example.age_socket]; vsockets := [Example.age] |} in
  let fn := function_with_deps "Change Color Inputs" [Example.color_socket] dependencies in
  create_function__with_deps AssertAbort "Change Color Inputs" [Example.color_socket]
    dependencies [None]
  = Ret (fn, [Some AgeInputProvider])
  ∧ fn_bodies fn
    = [TupleCallBody {| fgraph_inputs := [Example.age_socket];
                        fgraph_outputs := [Example.color_socket] |};
       LLVMBuildIRBody {| fgraph_inputs := [Example.age_socket];
                          fgraph_outputs := [Example.color_socket] |}].
Proof.
  intros dependencies fn. split; [reflexivity|].
  apply (proj2 (execution_strategies AssertAbort "Change Color Inputs"
                  [Example.color_socket] [] dependencies [None])
           fn [Some AgeInputProvider]).
  reflexivity.
Defined.

(** ** The entry point *)

(** C9: the entry point never returns the error variant, and on a graph
    that is one to one and reports only virtual sockets of the node kinds
    the factory knows it returns a value that holds a particle function. *)
Theorem create_particle_function_succeeds (mode : AssertMode) (vnode : VirtualNode)
    (data_graph : VTreeDataGraph) :
  let requested := find_input_data_sockets vnode data_graph in
  (∀ message, create_particle_function mode vnode data_graph ≠ Ret (Error message))
  ∧ (origin_one_to_one (reported_pairs data_graph requested) →
     Forall supported (reported_pairs data_graph requested).*2 →
     ∃ particle_fn,
       create_particle_function mode vnode data_graph = Ret (Value (Some particle_fn))).
Proof.
  intros requested. unfold create_particle_function. fold requested. split.
  - intros message Hrun.
    apply bind_Ret_inv in Hrun as ([dependencies flags] & _ & Hrun).
    apply create_particle_function_from_sockets_returned in Hrun
      as (? & ? & ? & ? & _ & _ & [=]).
  - intros Hone Hsupported.
    destruct (find_particle_dependencies_upto_analysed mode data_graph requested
                (replicate (length requested) false) (length requested) Hone
                (length_replicate _ _) (le_n _))
      as ([combined flags] & Hrun & Hlen & _ & pairs & Hs & Hv & _ & _ & Hsub).
    simpl in *. unfold find_particle_dependencies. rewrite Hrun. simpl.
    unfold create_particle_function_from_sockets.
    rewrite (partition_sockets_filter mode requested flags Hlen). simpl.
    match goal with
    | |- context [create_function__with_deps ?m ?n ?w ?d ?r] =>
        destruct (create_function__with_deps_total m n w d r) as (fn & providers & ->)
    end.
    + by rewrite length_replicate.
    + by rewrite Hs, Hv, !length_fmap.
    + rewrite Hv. apply Forall_forall. intros vsocket Hin.
      apply list_elem_of_fmap in Hin as (p & -> & Hp).
      rewrite Forall_forall in Hsupported. apply Hsupported.
      apply list_elem_of_fmap_2. by eapply reported_pairs_take_all, Hsub.
    + simpl. eauto.
Qed.

Lemma create_particle_function_succeeds_witness :
  ∃ particle_fn,
    create_particle_function AssertAbort Example.change_color Example.data_graph
    = Ret (Value (Some particle_fn)).
Proof.
  apply (create_particle_function_succeeds AssertAbort Example.change_color
           Example.data_graph).
  - unfold origin_one_to_one. vm_compute reported_pairs.
    repeat constructor; simpl; intros; congruence.
  - vm_compute reported_pairs. simpl.
    apply Forall_cons. split; [left; reflexivity|].
    apply Forall_cons. split; [right; reflexivity|].
    apply Forall_nil_2.
Defined.

(** ** The providers at evaluation time *)

Lemma for_each_total {A State : Type} (body : A → State → Outcome State)
    (Inv : list A → State → Prop) (values : list A) (state : State) :
  Inv [] state →
  (∀ seen x s, x ∈ values → Inv seen s → ∃ s', body x s = Ret s' ∧ Inv (seen ++ [x]) s') →
  ∃ state', for_each body values state = Ret state' ∧ Inv values state'.
Proof.
  intros Hinit Hstep.
  enough (∀ rest seen s,
            (∀ x, x ∈ rest → x ∈ values) → Inv seen s →
            ∃ s', for_each body rest s = Ret s' ∧ Inv (seen ++ rest) s') as Hgen.
  { apply (Hgen values [] state); done. }
  induction rest as [|x rest IH]; intros seen s Hsub Hinv.
  - exists s. by rewrite app_nil_r.
  - destruct (Hstep seen x s) as (s' & Hbody & Hinv'); [apply Hsub; left|done|].
    destruct (IH (seen ++ [x]) s') as (s'' & Hrun & Hinv''); [|done|].
    { intros y Hy. apply Hsub. by right. }
    exists s''. simpl. rewrite Hbody. simpl. by rewrite <- app_assoc in Hinv''.
Qed.

Lemma for_each_returned {A State : Type} (body : A → State → Outcome State)
    (Inv : State → Prop) (values : list A) (state state' : State) :
  for_each body values state = Ret state' →
  Inv state →
  (∀ x s s', Inv s → body x s = Ret s' → Inv s') →
  Inv state'.
Proof.
  intros Hrun Hinit Hstep. revert state Hrun Hinit.
  induction values as [|x values IH]; intros state Hrun Hinit.
  - by injection Hrun as <-.
  - simpl in Hrun. apply bind_Ret_inv in Hrun as (s & Hbody & Hrun).
    eapply IH; [done|]. by eapply Hstep.
Qed.

Section ProviderProofs.
Context {float : Type}.
Variable fsub : float → float → float.
Variable mode : AssertMode.

(** What a store does to the allocator. *)
Lemma store_Ret (array index : nat) (value : float)
    (allocator allocator' : ArrayAllocator float) :
  store array index value allocator = Ret allocator' ↔
  ∃ values, arena allocator !! array = Some values
            ∧ index < length values
            ∧ allocator' = {| array_size := array_size allocator;
                              arena := <[array := <[index := value]> values]>
                                         (arena allocator);
                              uninitialized := uninitialized allocator |}.
Proof.
  unfold store. destruct (arena allocator !! array) as [values|]; split.
  - case_decide; [|done]. intros [= <-]. eauto.
  - intros (values' & [= <-] & Hlt & ->). by rewrite decide_True.
  - done.
  - intros (? & ? & _). done.
Qed.

Lemma stored_to_refl (array : nat) (allocator : ArrayAllocator float) (values : list float) :
  arena allocator !! array = Some values → stored_to array allocator allocator.
Proof.
  intros H. repeat split. exists values, values. by rewrite list_insert_id.
Qed.

Lemma stored_to_store (array index : nat) (value : float)
    (before allocator allocator' : ArrayAllocator float) :
  stored_to array before allocator →
  store array index value allocator = Ret allocator' →
  stored_to array before allocator'.
Proof.
  intros (Hsize & Huninit & values & values' & Hbefore & Hlen & Harena).
  intros (current & Hcurrent & Hlt & ->)%store_Ret. repeat split; simpl; try done.
  exists values, (<[index := value]> current).
  assert (array < length (arena before)) by by eapply lookup_lt_Some.
  rewrite Harena, list_lookup_insert_eq in Hcurrent by done.
  injection Hcurrent as <-.
  by rewrite Harena, list_insert_insert_eq, length_insert.
Qed.

(** A loop that stores a value for every index of a list writes the
    indices of the list and no other. *)
Lemma store_loop_total (body : nat → ArrayAllocator float → Outcome (ArrayAllocator float))
    (value_of : nat → option float) (array : nat) (indices : list nat)
    (allocator : ArrayAllocator float) (values : list float) :
  arena allocator !! array = Some values →
  (∀ index a, index ∈ indices →
     ∃ value, value_of index = Some value ∧ index < length values
              ∧ body index a = store array index value a) →
  ∃ values',
    for_each body indices allocator
    = Ret {| array_size := array_size allocator;
             arena := <[array := values']> (arena allocator);
             uninitialized := uninitialized allocator |}
    ∧ length values' = length values
    ∧ (∀ index, index ∈ indices → values' !! index = value_of index)
    ∧ (∀ index, index ∉ indices → values' !! index = values !! index).
Proof.
  intros Harray Hbody.
  assert (Hlt : array < length (arena allocator)) by by eapply lookup_lt_Some.
  destruct (for_each_total body
              (λ seen a, ∃ values',
                 a = {| array_size := array_size allocator;
                        arena := <[array := values']> (arena allocator);
                        uninitialized := uninitialized allocator |}
                 ∧ length values' = length values
                 ∧ (∀ index, index ∈ seen → values' !! index = value_of index)
                 ∧ (∀ index, index ∉ seen → values' !! index = values !! index))
              indices allocator) as (a & Hrun & values' & -> & Hrest).
  - exists values. rewrite list_insert_id by done. destruct allocator.
    split; [done|]. split; [done|]. split; [|done].
    intros index Hin. by apply elem_of_nil in Hin.
  - intros seen index a Hin (current & -> & Hlen & Hseen & Hunseen).
    destruct (Hbody index {| array_size := array_size allocator;
                             arena := <[array := current]> (arena allocator);
                             uninitialized := uninitialized allocator |} Hin)
      as (value & Hvalue & Hindex & ->).
    unfold store. simpl. rewrite list_lookup_insert_eq by done.
    rewrite decide_True by lia. eexists. split; [done|].
    exists (<[index := value]> current). rewrite list_insert_insert_eq.
    repeat split; [by rewrite length_insert| |].
    + intros i [Hi| ->%list_elem_of_singleton]%elem_of_app.
      * destruct (decide (i = index)) as [->|Hne].
        -- rewrite list_lookup_insert_eq by lia. done.
        -- rewrite list_lookup_insert_ne by done. auto.
      * rewrite list_lookup_insert_eq by lia. done.
    + intros i Hi. rewrite elem_of_app, list_elem_of_singleton in Hi.
      rewrite list_lookup_insert_ne by (intros ->; tauto). apply Hunseen. tauto.
  - exists values'. done.
Qed.

(** The attribute provider returns the column with the name it holds,
    without touching the interface. *)
Lemma AttributeInputProvider_get_returned (m_name : string)
    (interface interface' : InputProviderInterface float)
    (array : ParticleFunctionInputArray) :
  AttributeInputProvider_get mode m_name interface = Ret (array, interface') →
  interface' = interface ∧ is_owned array = false
  ∧ ∃ index column, attributes (particles interface) !! index = Some column
                    ∧ attribute_name column = m_name
                    ∧ buffer array = AttributePtr index
                    ∧ stride array = attribute_stride column.
Proof.
  unfold AttributeInputProvider_get, attribute_index. intros Hrun.
  apply bind_Ret_inv in Hrun as (index & Hindex & Hrun).
  apply bind_Ret_inv in Hrun as (column & Hcolumn%array_get_Ret & [= <- <-]).
  repeat split. exists index, column. repeat split; try done.
  destruct (list_find _ _) as [[i c]|] eqn:Hfind;
    [|by apply out_of_range_not_Ret in Hindex].
  injection Hindex as ->. apply list_find_Some in Hfind as (Hc & Hname & _).
  congruence.
Qed.

Lemma AttributeInputProvider_get_total (m_name : string)
    (interface : InputProviderInterface float) (index : nat)
    (column : AttributeColumn float) :
  list_find (λ column, attribute_name column = m_name) (attributes (particles interface))
  = Some (index, column) →
  AttributeInputProvider_get mode m_name interface
  = Ret ({| buffer := AttributePtr index;
            stride := attribute_stride column;
            is_owned := false |}, interface).
Proof.
  intros Hfind. unfold AttributeInputProvider_get, attribute_index. rewrite Hfind. simpl.
  apply list_find_Some in Hfind as (Hcolumn & _).
  by rewrite (proj2 (array_get_Ret mode _ _ _) Hcolumn).
Qed.
(** On a batch in range the age provider returns a new array that holds
    the age at the indices of the batch and is unwritten elsewhere. *)
Lemma AgeInputProvider_get_total (interface : InputProviderInterface float)
    (birth_times : list float) :
  attributes_get_float mode (attributes (particles interface)) "Birth Time"
  = Ret birth_times →
  pindices_in_range interface birth_times →
  let allocator := array_allocator interface in
  ∃ ages,
    AgeInputProvider_get fsub mode interface
    = Ret ({| buffer := ArenaPtr (length (arena allocator));
              stride := sizeof_float;
              is_owned := true |},
           with_allocator interface
             {| array_size := array_size allocator;
                arena := arena allocator ++ [ages];
                uninitialized := uninitialized allocator |})
    ∧ length ages = array_size allocator
    ∧ (∀ pindex, pindex ∈ pindices (particles interface) →
         ages !! pindex = age_of fsub (particle_times interface) birth_times pindex)
    ∧ (∀ pindex, pindex ∉ pindices (particles interface) →
         ages !! pindex
         = (uninitialized allocator <$> seq 0 (array_size allocator)) !! pindex).
Proof.
  intros Hbirth Hrange allocator. unfold pindices_in_range in Hrange.
  rewrite Forall_forall in Hrange.
  unfold AgeInputProvider_get. rewrite Hbirth. simpl. fold allocator.
  set (fresh := uninitialized allocator <$> seq 0 (array_size allocator)).
  set (allocated := {| array_size := array_size allocator;
                       arena := arena allocator ++ [fresh];
                       uninitialized := uninitialized allocator |}).
  assert (Hfresh : arena allocated !! length (arena allocator) = Some fresh).
  { simpl. by rewrite list_lookup_middle. }
  assert (Hlength : length fresh = array_size allocator).
  { unfold fresh. by rewrite length_fmap, length_seq. }
  assert (Harena : ∀ values, <[length (arena allocator) := values]> (arena allocated)
                             = arena allocator ++ [values]).
  { intros values. simpl. rewrite insert_app_r_alt by lia.
    by rewrite Nat.sub_diag. }
  revert Hrange.
  destruct (particle_times interface) as [current_times|remaining_durations end_time];
    intros Hrange; simpl.
  - destruct (store_loop_total
                (λ pindex a,
                   current_time ← array_get mode current_times pindex;
                   birth_time ← array_get mode birth_times pindex;
                   store (length (arena allocator)) pindex
                         (fsub current_time birth_time) a)
                (age_of fsub (Current current_times) birth_times)
                (length (arena allocator)) (pindices (particles interface))
                allocated fresh Hfresh)
      as (ages & Hrun & Hlen & Hin & Hout).
    + intros pindex a Hp. destruct (Hrange pindex Hp) as (Hsize & Hb & Ht).
      destruct (lookup_lt_is_Some_2 birth_times pindex Hb) as [birth_time Hbirth_time].
      destruct (lookup_lt_is_Some_2 current_times pindex Ht) as [time Htime].
      exists (fsub time birth_time). simpl. rewrite Htime, Hbirth_time. simpl.
      rewrite (proj2 (array_get_Ret mode _ _ _) Htime). simpl.
      rewrite (proj2 (array_get_Ret mode _ _ _) Hbirth_time). simpl.
      split; [done|]. split; [unfold allocator in Hlength; lia|done].
    + exists ages. rewrite Harena in Hrun. rewrite Hrun. simpl.
      split; [done|]. split; [lia|]. split; done.
  - destruct (store_loop_total
                (λ pindex a,
                   remaining_duration ← array_get mode remaining_durations pindex;
                   birth_time ← array_get mode birth_times pindex;
                   store (length (arena allocator)) pindex
                         (fsub (fsub end_time remaining_duration) birth_time) a)
                (age_of fsub (DurationAndEnd remaining_durations end_time) birth_times)
                (length (arena allocator)) (pindices (particles interface))
                allocated fresh Hfresh)
      as (ages & Hrun & Hlen & Hin & Hout).
    + intros pindex a Hp. destruct (Hrange pindex Hp) as (Hsize & Hb & Ht).
      destruct (lookup_lt_is_Some_2 birth_times pindex Hb) as [birth_time Hbirth_time].
      destruct (lookup_lt_is_Some_2 remaining_durations pindex Ht) as [time Htime].
      exists (fsub (fsub end_time time) birth_time). simpl.
      rewrite Htime, Hbirth_time. simpl.
      rewrite (proj2 (array_get_Ret mode _ _ _) Htime). simpl.
      rewrite (proj2 (array_get_Ret mode _ _ _) Hbirth_time). simpl.
      split; [done|]. split; [unfold allocator in Hlength; lia|done].
    + exists ages. rewrite Harena in Hrun. rewrite Hrun. simpl.
      split; [done|]. split; [lia|]. split; done.
Qed.

(** Whenever the age provider returns, it has allocated one array and
    hands it out as owned. *)
Lemma AgeInputProvider_get_returned (interface interface' : InputProviderInterface float)
    (array : ParticleFunctionInputArray) :
  AgeInputProvider_get fsub mode interface = Ret (array, interface') →
  let allocator := array_allocator interface in
  array = {| buffer := ArenaPtr (length (arena allocator));
             stride := sizeof_float;
             is_owned := true |}
  ∧ ∃ ages, interface' = with_allocator interface
                           {| array_size := array_size allocator;
                              arena := arena allocator ++ [ages];
                              uninitialized := uninitialized allocator |}
            ∧ length ages = array_size allocator.
Proof.
  intros Hrun allocator. unfold AgeInputProvider_get in Hrun.
  apply bind_Ret_inv in Hrun as (birth_times & _ & Hrun). simpl in Hrun.
  fold allocator in Hrun.
  set (fresh := uninitialized allocator <$> seq 0 (array_size allocator)) in Hrun.
  set (allocated := {| array_size := array_size allocator;
                       arena := arena allocator ++ [fresh];
                       uninitialized := uninitialized allocator |}) in Hrun.
  apply bind_Ret_inv in Hrun as (a & Hloop & [= <- <-]). split; [done|].
  assert (Hfresh : arena allocated !! length (arena allocator) = Some fresh).
  { simpl. by rewrite list_lookup_middle. }
  assert (stored_to (length (arena allocator)) allocated a)
    as (Hsize & Huninit & values & values' & Hvalues & Hlen & Harena).
  { destruct (particle_times interface) as [current_times|remaining_durations end_time].
    - apply (for_each_returned _ (stored_to (length (arena allocator)) allocated))
        in Hloop; [done|by eapply stored_to_refl|].
      intros pindex s s' Hs Hbody.
      apply bind_Ret_inv in Hbody as (time & _ & Hbody).
      apply bind_Ret_inv in Hbody as (birth_time & _ & Hbody).
      by eapply stored_to_store.
    - apply (for_each_returned _ (stored_to (length (arena allocator)) allocated))
        in Hloop; [done|by eapply stored_to_refl|].
      intros pindex s s' Hs Hbody.
      apply bind_Ret_inv in Hbody as (time & _ & Hbody).
      apply bind_Ret_inv in Hbody as (birth_time & _ & Hbody).
      by eapply stored_to_store. }
  rewrite Hfresh in Hvalues. injection Hvalues as <-.
  exists values'. split.
  - unfold with_allocator. f_equal. destruct a. simpl in *. subst.
    f_equal. rewrite insert_app_r_alt by lia. by rewrite Nat.sub_diag.
  - rewrite Hlen. unfold fresh. by rewrite length_fmap, length_seq.
Qed.
End ProviderProofs.

(** C2: on a batch in range the age provider writes the new array at the
    indices of the batch and nowhere else, and leaves the arrays handed
    out before and the particles as they were.  At an index of the batch
    the array holds the current time minus the birth time under the
    current-time variant, and the end time minus the remaining duration
    minus the birth time under the duration-and-end variant. *)
Theorem age_written_for_active_indices {float : Type} (fsub : float → float → float)
    (mode : AssertMode) (interface : InputProviderInterface float)
    (birth_times : list float) :
  attributes_get_float mode (attributes (particles interface)) "Birth Time"
  = Ret birth_times →
  pindices_in_range interface birth_times →
  let allocator := array_allocator interface in
  ∃ array interface' ages,
    AgeInputProvider_get fsub mode interface = Ret (array, interface')
    ∧ buffer array = ArenaPtr (length (arena allocator))
    ∧ particles interface' = particles interface
    ∧ arena (array_allocator interface') = arena allocator ++ [ages]
    ∧ length ages = array_size allocator
    ∧ (∀ pindex, pindex ∉ pindices (particles interface) →
         pindex < array_size allocator →
         ages !! pindex = Some (uninitialized allocator pindex))
    ∧ (∀ pindex birth_time,
         pindex ∈ pindices (particles interface) →
         birth_times !! pindex = Some birth_time →
         match particle_times interface with
         | Current current_times =>
             ∀ current_time, current_times !! pindex = Some current_time →
               ages !! pindex = Some (fsub current_time birth_time)
         | DurationAndEnd remaining_durations end_time =>
             ∀ remaining_duration,
               remaining_durations !! pindex = Some remaining_duration →
               ages !! pindex = Some (fsub (fsub end_time remaining_duration) birth_time)
         end).
Proof.
  intros Hbirth Hrange allocator.
  destruct (AgeInputProvider_get_total fsub mode interface birth_times Hbirth Hrange)
    as (ages & Hrun & Hlen & Hin & Hout).
  eexists _, _, ages. split; [exact Hrun|]. simpl. fold allocator.
  split; [done|]. split; [done|]. split; [done|]. split; [done|]. split.
  - intros pindex Hp Hlt. rewrite (Hout pindex Hp), list_lookup_fmap.
    by rewrite lookup_seq_lt.
  - intros pindex birth_time Hp Hb. specialize (Hin pindex Hp). revert Hin.
    destruct (particle_times interface); simpl; intros Hin time Htime;
      by rewrite Hin, Htime, Hb.
Qed.

Lemma age_written_for_active_indices_witness :
  (∃ array interface',
     AgeInputProvider_get Z.sub AssertAbort (Example.interface (Current [5; 5; 5; 5]%Z) None)
     = Ret (array, interface')
     ∧ arena (array_allocator interface') = [[5; -1; 4; -1]%Z])
  ∧ (∃ array interface',
       AgeInputProvider_get Z.sub AssertAbort
         (Example.interface (DurationAndEnd [1; 1; 1; 1]%Z 10%Z) None)
       = Ret (array, interface')
       ∧ arena (array_allocator interface') = [[9; -1; 8; -1]%Z]).
Proof.
  split.
  - destruct (age_written_for_active_indices Z.sub AssertAbort
                (Example.interface (Current [5; 5; 5; 5]%Z) None) [0; 2; 1; 4]%Z)
      as (array & interface' & ages & Hrun & _).
    + reflexivity.
    + unfold pindices_in_range. simpl. repeat constructor; simpl; lia.
    + exists array, interface'. split; [exact Hrun|].
      vm_compute in Hrun. by injection Hrun as <- <-.
  - destruct (age_written_for_active_indices Z.sub AssertAbort
                (Example.interface (DurationAndEnd [1; 1; 1; 1]%Z 10%Z) None)
                [0; 2; 1; 4]%Z)
      as (array & interface' & ages & Hrun & _).
    + reflexivity.
    + unfold pindices_in_range. simpl. repeat constructor; simpl; lia.
    + exists array, interface'. split; [exact Hrun|].
      vm_compute in Hrun. by injection Hrun as <- <-.
Defined.

(** C8: the attribute provider returns a view that is not owned and leaves
    the interface, and with it the allocator, as it was; it returns for
    every attribute name the storage has.  The age provider, whenever it
    returns, has taken one new array from the allocator and returns the
    view of that array as owned; it returns on every batch in range. *)
Theorem provider_ownership {float : Type} (fsub : float → float → float)
    (mode : AssertMode) (m_name : string) (interface : InputProviderInterface float) :
  let allocator := array_allocator interface in
  (∀ array interface',
     AttributeInputProvider_get mode m_name interface = Ret (array, interface') →
     interface' = interface ∧ is_owned array = false)
  ∧ (∀ index column,
       list_find (λ column, attribute_name column = m_name)
                 (attributes (particles interface)) = Some (index, column) →
       ∃ array, AttributeInputProvider_get mode m_name interface = Ret (array, interface))
  ∧ (∀ array interface',
       AgeInputProvider_get fsub mode interface = Ret (array, interface') →
       is_owned array = true
       ∧ buffer array = ArenaPtr (length (arena allocator))
       ∧ ∃ ages, arena (array_allocator interface') = arena allocator ++ [ages]
                 ∧ length ages = array_size allocator)
  ∧ (∀ birth_times,
       attributes_get_float mode (attributes (particles interface)) "Birth Time"
       = Ret birth_times →
       pindices_in_range interface birth_times →
       ∃ array interface', AgeInputProvider_get fsub mode interface = Ret (array, interface')).
Proof.
  intros allocator. split; [|split; [|split]].
  - intros array interface' Hrun.
    apply AttributeInputProvider_get_returned in Hrun as (-> & Howned & _). done.
  - intros index column Hfind. eexists.
    by apply AttributeInputProvider_get_total.
  - intros array interface' Hrun.
    apply AgeInputProvider_get_returned in Hrun as (-> & ages & -> & Hlen).
    simpl. eauto.
  - intros birth_times Hbirth Hrange.
    destruct (AgeInputProvider_get_total fsub mode interface birth_times Hbirth Hrange)
      as (ages & Hrun & _).
    eauto.
Qed.

Lemma provider_ownership_witness :
  let interface := Example.interface (Current [5; 5; 5; 5]%Z) None in
  (∃ array, AttributeInputProvider_get AssertAbort "Position" interface
            = Ret (array, interface)
            ∧ is_owned array = false)
  ∧ (∃ array interface', AgeInputProvider_get Z.sub AssertAbort interface
                         = Ret (array, interface')
                         ∧ is_owned array = true
                         ∧ length (arena (array_allocator interface')) = 1).
Proof.
  intros interface.
  destruct (provider_ownership Z.sub AssertAbort "Position" interface)
    as (Hattribute & Hattribute_total & Hage & Hage_total).
  split.
  - destruct (Hattribute_total 0 _ eq_refl) as [array Hrun].
    exists array. split; [exact Hrun|]. by apply (Hattribute array interface).
  - destruct (Hage_total [0; 2; 1; 4]%Z eq_refl) as (array & interface' & Hrun).
    { unfold pindices_in_range. simpl. repeat constructor; simpl; lia. }
    exists array, interface'. split; [exact Hrun|].
    destruct (Hage array interface' Hrun) as (Howned & _ & ages & Harena & _).
    split; [exact Howned|]. by rewrite Harena.
Defined.

(** C6 (as the code has it): called without an action context, or with one
    that is no collision event, the collision normal provider stops at its
    assertion where assertions abort; where they are compiled out it goes
    on to read the normals through the null pointer, which is undefined.
    It returns no array in either build. *)
Theorem collision_normal_needs_collision_context {float : Type} (mode : AssertMode)
    (interface : InputProviderInterface float) :
  action_context interface = None ∨ action_context interface = Some OtherActionContext →
  CollisionNormalInputProvider_get mode interface
  = match mode with AssertAbort => Abort | AssertIgnore => Undefined end
  ∧ ∀ result, CollisionNormalInputProvider_get mode interface ≠ Ret result.
Proof.
  intros Hcontext.
  assert (CollisionNormalInputProvider_get mode interface
          = match mode with AssertAbort => Abort | AssertIgnore => Undefined end) as ->.
  { unfold CollisionNormalInputProvider_get.
    destruct Hcontext as [-> | ->]; by destruct mode. }
  split; [done|]. by destruct mode.
Qed.

Lemma collision_normal_needs_collision_context_witness :
  CollisionNormalInputProvider_get AssertAbort
    (Example.interface (Current [5; 5; 5; 5]%Z) None) = Abort
  ∧ CollisionNormalInputProvider_get AssertAbort
      (Example.interface (Current [5; 5; 5; 5]%Z) (Some OtherActionContext)) = Abort.
Proof.
  split.
  - apply (collision_normal_needs_collision_context AssertAbort
             (Example.interface (Current [5; 5; 5; 5]%Z) None)).
    left. reflexivity.
  - apply (collision_normal_needs_collision_context AssertAbort
             (Example.interface (Current [5; 5; 5; 5]%Z) (Some OtherActionContext))).
    right. reflexivity.
Defined.

(** C6 as the spec words it fails: with assertions compiled out and no
    action context, the call does not take the path of the failed
    assertion; it runs into the read through the null pointer. *)
Lemma missing_context_not_fatal_without_assertions :
  CollisionNormalInputProvider_get AssertIgnore
    (Example.interface (Current [5; 5; 5; 5]%Z) None) = Undefined
  ∧ CollisionNormalInputProvider_get AssertIgnore
      (Example.interface (Current [5; 5; 5; 5]%Z) None) ≠ Abort.
Proof. split; [reflexivity | discriminate]. Qed.

(** * Further properties of the code *)

(** ** The set vectors *)

Section SetVectorProofs.
Context {T : Type} `{EqDecision T}.

Lemma SetVector_add_NoDup (elements : list T) (value : T) :
  NoDup elements → NoDup (SetVector_add elements value).
Proof.
  intros Hnd. unfold SetVector_add. case_decide; [done|].
  apply NoDup_app. split; [done|]. split; [|apply NoDup_singleton].
  intros x Hx ->%list_elem_of_singleton. done.
Qed.

Lemma SetVector_add_multiple_NoDup (elements values : list T) :
  NoDup elements → NoDup (SetVector_add_multiple elements values).
Proof.
  unfold SetVector_add_multiple. revert elements.
  induction values as [|value values IH]; intros elements Hnd; [done|].
  simpl. by apply IH, SetVector_add_NoDup.
Qed.

Lemma elem_of_SetVector_add_multiple (elements values : list T) (x : T) :
  x ∈ SetVector_add_multiple elements values ↔ x ∈ elements ∨ x ∈ values.
Proof.
  unfold SetVector_add_multiple. revert elements.
  induction values as [|value values IH]; intros elements; simpl.
  - rewrite elem_of_nil. tauto.
  - rewrite IH, elem_of_cons. unfold SetVector_add. case_decide.
    + split; [tauto|]. intros [?|[->|?]]; tauto.
    + rewrite elem_of_app, list_elem_of_singleton. tauto.
Qed.

Lemma SetVector_add_multiple_prefix (elements values : list T) :
  elements `prefix_of` SetVector_add_multiple elements values.
Proof.
  unfold SetVector_add_multiple. revert elements.
  induction values as [|value values IH]; intros elements; simpl; [done|].
  etrans; [|apply IH]. unfold SetVector_add. case_decide; [done|].
  by apply prefix_app_r.
Qed.
End SetVectorProofs.

(** ** The dependency analysis on any graph *)

Lemma foldl_add_multiple_NoDup {A T : Type} `{EqDecision T} (f : A → list T)
    (values : list A) (start : list T) :
  NoDup start →
  NoDup (foldl (λ collected x, SetVector_add_multiple collected (f x)) start values).
Proof.
  revert start. induction values as [|x values IH]; intros start Hnd; [done|].
  simpl. by apply IH, SetVector_add_multiple_NoDup.
Qed.

Lemma elem_of_foldl_add_multiple {A T : Type} `{EqDecision T} (f : A → list T)
    (values : list A) (start : list T) (y : T) :
  y ∈ foldl (λ collected x, SetVector_add_multiple collected (f x)) start values
  ↔ y ∈ start ∨ ∃ x, x ∈ values ∧ y ∈ f x.
Proof.
  revert start. induction values as [|x values IH]; intros start; simpl.
  - split; [tauto|]. intros [?|(x & Hx & _)]; [done|]. by apply elem_of_nil in Hx.
  - rewrite IH, elem_of_SetVector_add_multiple. split.
    + intros [[?|?]|(x' & Hx' & Hy)]; [tauto| |].
      * right. exists x. split; [left|done].
      * right. exists x'. split; [by right|done].
    + intros [?|(x' & Hx' & Hy)]; [tauto|].
      apply elem_of_cons in Hx' as [->|Hx']; [tauto|]. right. eauto.
Qed.

Lemma foldl_add_multiple_prefix {A T : Type} `{EqDecision T} (f : A → list T)
    (values : list A) (start : list T) :
  start `prefix_of` foldl (λ collected x, SetVector_add_multiple collected (f x))
                          start values.
Proof.
  revert start. induction values as [|x values IH]; intros start; simpl; [done|].
  etrans; [apply SetVector_add_multiple_prefix|apply IH].
Qed.

Lemma collected_sockets_snoc (data_graph : VTreeDataGraph) (requested : list DataSocket)
    (socket : DataSocket) :
  collected_sockets data_graph (requested ++ [socket])
  = SetVector_add_multiple (collected_sockets data_graph requested)
      (find_placeholder_dependencies data_graph socket).*1.
Proof. unfold collected_sockets. by rewrite foldl_app. Qed.

Lemma collected_vsockets_snoc (data_graph : VTreeDataGraph) (requested : list DataSocket)
    (socket : DataSocket) :
  collected_vsockets data_graph (requested ++ [socket])
  = SetVector_add_multiple (collected_vsockets data_graph requested)
      (find_placeholder_dependencies data_graph socket).*2.
Proof. unfold collected_vsockets. by rewrite foldl_app. Qed.

(** Every run of the loop that returns has built the two folds and written
    the flags of the rounds it made, whatever the graph reports. *)
Lemma find_particle_dependencies_upto_accumulated (mode : AssertMode)
    (data_graph : VTreeDataGraph) (sockets_to_compute : list DataSocket)
    (flags : list bool) (count : nat) (state : DependencyState) :
  find_particle_dependencies_upto mode data_graph sockets_to_compute flags count
  = Ret state →
  accumulated data_graph sockets_to_compute flags count state.
Proof.
  unfold find_particle_dependencies_upto. intros Hrun.
  apply (for_range_returned _ (accumulated data_graph sockets_to_compute flags)) in Hrun;
    [done| |].
  - unfold accumulated. simpl. rewrite take_0.
    split; [done|]. split; [done|]. split; [lia|]. split; [lia|]. split; [done|].
    split; [|done]. intros j socket Hj. lia.
  - intros i [combined current] state' _
      (Hs & Hv & Hcount & Hcountf & Hlen & Hflags & Hrest) Hbody.
    simpl in *. unfold find_particle_dependencies_body in Hbody.
    apply bind_Ret_inv in Hbody as (socket & Hsocket%array_get_Ret & Hbody).
    apply bind_Ret_inv in Hbody as (flags' & [Hlt ->]%array_set_Ret & Hbody).
    apply bind_Ret_inv in Hbody as (_ & _ & [= <-]).
    unfold accumulated. simpl.
    rewrite (take_S_r _ _ _ Hsocket), collected_sockets_snoc, collected_vsockets_snoc.
    rewrite Hs, Hv, length_insert.
    assert (i < length sockets_to_compute) by by eapply lookup_lt_Some.
    split; [done|]. split; [done|]. split; [lia|]. split; [lia|]. split; [done|].
    split.
    + intros j socket' Hj Hsocket'. destruct (decide (j = i)) as [->|Hne].
      * rewrite list_lookup_insert_eq by done. f_equal.
        assert (socket' = socket) as -> by congruence.
        by destruct (find_placeholder_dependencies data_graph socket).
      * rewrite list_lookup_insert_ne by done. apply Hflags; [lia|done].
    + intros j Hj. rewrite list_lookup_insert_ne by lia. apply Hrest. lia.
Qed.

Lemma length_omap_le {A B : Type} (f : A → option B) (values : list A) :
  length (omap f values) ≤ length values.
Proof.
  induction values as [|x values IH]; simpl; [done|].
  unfold omap in IH. destruct (f x); simpl; lia.
Qed.

(** X1: the requested sockets are the sockets of the inputs of the node
    that have one, in the order of the inputs; inputs without a socket are
    skipped. *)
Theorem find_input_data_sockets_omap (vnode : VirtualNode) (data_graph : VTreeDataGraph) :
  find_input_data_sockets vnode data_graph
  = omap (lookup_socket_ptr data_graph) (vnode_inputs data_graph vnode)
  ∧ length (find_input_data_sockets vnode data_graph)
    ≤ length (vnode_inputs data_graph vnode)
  ∧ ∀ socket, socket ∈ find_input_data_sockets vnode data_graph
              ↔ ∃ vsocket, vsocket ∈ vnode_inputs data_graph vnode
                           ∧ lookup_socket_ptr data_graph vsocket = Some socket.
Proof.
  assert (Hgen : ∀ inputs start,
            foldl (λ inputs vsocket,
                     match lookup_socket_ptr data_graph vsocket with
                     | Some socket => inputs ++ [socket]
                     | None => inputs
                     end) start inputs
            = start ++ omap (lookup_socket_ptr data_graph) inputs).
  { induction inputs as [|vsocket inputs IH]; intros start; simpl.
    - by rewrite app_nil_r.
    - rewrite IH. destruct (lookup_socket_ptr data_graph vsocket); [|done].
      by rewrite <- app_assoc. }
  assert (Heq : find_input_data_sockets vnode data_graph
                = omap (lookup_socket_ptr data_graph) (vnode_inputs data_graph vnode)).
  { unfold find_input_data_sockets. by rewrite Hgen. }
  rewrite Heq. split; [done|]. split.
  - apply length_omap_le.
  - intros socket. apply list_elem_of_omap.
Qed.

(** X2: when the analysis returns, each of the two collections is free of
    duplicates and holds exactly what the graph reports for some requested
    socket, on any graph and in both builds. *)
Theorem dependency_set_exact (mode : AssertMode) (data_graph : VTreeDataGraph)
    (sockets_to_compute : list DataSocket) (flags flags' : list bool)
    (combined : SocketDependencies) :
  find_particle_dependencies mode data_graph sockets_to_compute flags
  = Ret (combined, flags') →
  NoDup (sockets combined) ∧ NoDup (vsockets combined)
  ∧ (∀ socket, socket ∈ sockets combined
               ↔ ∃ requested vsocket,
                   requested ∈ sockets_to_compute
                   ∧ (socket, vsocket) ∈ find_placeholder_dependencies data_graph requested)
  ∧ (∀ vsocket, vsocket ∈ vsockets combined
                ↔ ∃ requested socket,
                    requested ∈ sockets_to_compute
                    ∧ (socket, vsocket) ∈ find_placeholder_dependencies data_graph requested).
Proof.
  intros Hrun. apply find_particle_dependencies_upto_accumulated in Hrun
    as (Hs & Hv & _). simpl in *. rewrite firstn_all in Hs, Hv. rewrite Hs, Hv.
  split; [apply foldl_add_multiple_NoDup, NoDup_nil_2|].
  split; [apply foldl_add_multiple_NoDup, NoDup_nil_2|].
  split.
  - intros socket. unfold collected_sockets. rewrite elem_of_foldl_add_multiple.
    rewrite elem_of_nil. split.
    + intros [[]|(requested & Hin & Hsocket)].
      apply list_elem_of_fmap in Hsocket as ([s v] & -> & Hp). eauto.
    + intros (requested & vsocket & Hin & Hp). right. exists requested.
      split; [done|]. apply list_elem_of_fmap. by exists (socket, vsocket).
  - intros vsocket. unfold collected_vsockets. rewrite elem_of_foldl_add_multiple.
    rewrite elem_of_nil. split.
    + intros [[]|(requested & Hin & Hvsocket)].
      apply list_elem_of_fmap in Hvsocket as ([s v] & -> & Hp). eauto.
    + intros (requested & socket & Hin & Hp). right. exists requested.
      split; [done|]. apply list_elem_of_fmap. by exists (socket, vsocket).
Qed.

Lemma dependency_set_exact_witness :
  NoDup [Example.age_socket; Example.normal_socket]
  ∧ ∀ socket, socket ∈ [Example.age_socket; Example.normal_socket]
              ↔ ∃ requested vsocket,
                  requested ∈ Example.requested
                  ∧ (socket, vsocket)
                    ∈ find_placeholder_dependencies Example.data_graph requested.
Proof.
  destruct (dependency_set_exact AssertAbort Example.data_graph Example.requested
              [false; false] [true; false]
              {| sockets := [Example.age_socket; Example.normal_socket];
                 vsockets := [Example.age; Example.normal] |} eq_refl)
    as (Hnd & _ & Hsockets & _).
  split; [exact Hnd | exact Hsockets].
Defined.

(** X3: what the analysis has collected keeps its place: the collections
    after more rounds of the loop begin with the collections after fewer
    rounds, so a dependency has the index of its first discovery. *)
Theorem dependency_set_extends (mode : AssertMode) (data_graph : VTreeDataGraph)
    (sockets_to_compute : list DataSocket) (flags : list bool) (count count' : nat)
    (state state' : DependencyState) :
  count ≤ count' →
  find_particle_dependencies_upto mode data_graph sockets_to_compute flags count
  = Ret state →
  find_particle_dependencies_upto mode data_graph sockets_to_compute flags count'
  = Ret state' →
  sockets state.1 `prefix_of` sockets state'.1
  ∧ vsockets state.1 `prefix_of` vsockets state'.1.
Proof.
  intros Hle Hrun Hrun'.
  apply find_particle_dependencies_upto_accumulated in Hrun as (Hs & Hv & _).
  apply find_particle_dependencies_upto_accumulated in Hrun' as (Hs' & Hv' & _).
  rewrite Hs, Hv, Hs', Hv'.
  assert (Htake : take count' sockets_to_compute
                  = take count sockets_to_compute
                    ++ drop count (take count' sockets_to_compute)).
  { rewrite <- (take_drop count (take count' sockets_to_compute)) at 1.
    rewrite take_take. by replace (count `min` count') with count by lia. }
  rewrite Htake. unfold collected_sockets, collected_vsockets. rewrite !foldl_app.
  split; apply foldl_add_multiple_prefix.
Qed.

Lemma dependency_set_extends_witness :
  ∃ state state',
    find_particle_dependencies_upto AssertAbort Example.data_graph Example.requested
      [false; false] 1 = Ret state
    ∧ find_particle_dependencies_upto AssertAbort Example.data_graph Example.requested
        [false; false] 2 = Ret state'
    ∧ sockets state.1 `prefix_of` sockets state'.1
    ∧ vsockets state.1 `prefix_of` vsockets state'.1.
Proof.
  eexists _, _. split; [reflexivity|]. split; [reflexivity|].
  apply (dependency_set_extends AssertAbort Example.data_graph Example.requested
           [false; false] 1 2); [lia | reflexivity | reflexivity].
Defined.

(** X4: where assertions abort, the analysis returns only with two
    collections of the same size, whatever the graph reports. *)
Theorem sizes_equal_where_assertions_abort (data_graph : VTreeDataGraph)
    (sockets_to_compute : list DataSocket) (flags flags' : list bool)
    (combined : SocketDependencies) :
  find_particle_dependencies AssertAbort data_graph sockets_to_compute flags
  = Ret (combined, flags') →
  length (sockets combined) = length (vsockets combined).
Proof.
  unfold find_particle_dependencies, find_particle_dependencies_upto. intros Hrun.
  apply (for_range_returned _
           (λ _ state, length (sockets state.1) = length (vsockets state.1)))
    in Hrun; [done|done|].
  intros i [current f] state' _ _ Hbody. unfold find_particle_dependencies_body in Hbody.
  apply bind_Ret_inv in Hbody as (socket & _ & Hbody).
  apply bind_Ret_inv in Hbody as (f' & _ & Hbody).
  apply bind_Ret_inv in Hbody as (u & Hassert & [= <-]).
  apply BLI_assert_Ret_inv in Hassert as [?|Hassert]; [done|].
  by apply bool_decide_eq_true in Hassert.
Qed.

Lemma sizes_equal_where_assertions_abort_witness :
  length [Example.age_socket; Example.normal_socket]
  = length [Example.age; Example.normal].
Proof.
  apply (sizes_equal_where_assertions_abort Example.data_graph Example.requested
           [false; false] [true; false]
           {| sockets := [Example.age_socket; Example.normal_socket];
              vsockets := [Example.age; Example.normal] |}).
  reflexivity.
Defined.

(** X5: where assertions abort, the analysis returns only when the flag
    array has a place for every requested socket.  On such an array, in
    both builds, a run that returns keeps the length of the array and
    leaves the places behind the requested sockets as they were. *)
Theorem flag_array_bounds (mode : AssertMode) (data_graph : VTreeDataGraph)
    (sockets_to_compute : list DataSocket) (flags flags' : list bool)
    (combined : SocketDependencies) :
  find_particle_dependencies mode data_graph sockets_to_compute flags
  = Ret (combined, flags') →
  (mode = AssertAbort → length sockets_to_compute ≤ length flags)
  ∧ (length sockets_to_compute ≤ length flags →
     length flags' = length flags
     ∧ ∀ j, length sockets_to_compute ≤ j → flags' !! j = flags !! j).
Proof.
  intros Hrun. apply find_particle_dependencies_upto_accumulated in Hrun
    as (_ & _ & _ & Hle & Hlen & _ & Hrest).
  done.
Qed.

Lemma flag_array_bounds_witness :
  ∃ combined flags',
    find_particle_dependencies AssertAbort Example.data_graph Example.requested
      [false; false; true] = Ret (combined, flags')
    ∧ length flags' = 3 ∧ flags' !! 2 = Some true.
Proof.
  eexists _, _. split; [reflexivity|].
  destruct (flag_array_bounds AssertAbort Example.data_graph Example.requested
              [false; false; true] _ _ eq_refl) as (Hcover & Hkept).
  destruct (Hkept (Hcover eq_refl)) as (Hlen & Hrest).
  split; [exact Hlen | exact (Hrest 2 (le_n 2))].
Defined.

Lemma SetVector_add_multiple_absorb {T : Type} `{EqDecision T} (elements values : list T) :
  (∀ x, x ∈ values → x ∈ elements) → SetVector_add_multiple elements values = elements.
Proof.
  unfold SetVector_add_multiple. induction values as [|value values IH]; intros Hin;
    [done|].
  simpl. unfold SetVector_add at 2. rewrite decide_True by (apply Hin; left).
  apply IH. intros x Hx. apply Hin. by right.
Qed.

Lemma foldl_add_multiple_absorb {A T : Type} `{EqDecision T} (f : A → list T)
    (values : list A) (start : list T) :
  (∀ x y, x ∈ values → y ∈ f x → y ∈ start) →
  foldl (λ collected x, SetVector_add_multiple collected (f x)) start values = start.
Proof.
  induction values as [|x values IH]; intros Hin; [done|].
  simpl. rewrite SetVector_add_multiple_absorb.
  - apply IH. intros x' y Hx'. apply Hin. by right.
  - intros y. apply Hin. left.
Qed.

(** X6: requesting sockets again that were requested before adds nothing:
    the analysis of a list followed by sockets of that list collects what
    the analysis of the list collects, in the same order. *)
Theorem repeated_requests_add_nothing (mode : AssertMode) (data_graph : VTreeDataGraph)
    (requested again : list DataSocket) (flags flags1 flags2 : list bool)
    (combined1 combined2 : SocketDependencies) :
  (∀ socket, socket ∈ again → socket ∈ requested) →
  find_particle_dependencies mode data_graph requested (take (length requested) flags)
  = Ret (combined1, flags1) →
  find_particle_dependencies mode data_graph (requested ++ again) flags
  = Ret (combined2, flags2) →
  combined2 = combined1.
Proof.
  intros Hagain Hrun1 Hrun2.
  apply find_particle_dependencies_upto_accumulated in Hrun1 as (Hs1 & Hv1 & _).
  apply find_particle_dependencies_upto_accumulated in Hrun2 as (Hs2 & Hv2 & _).
  simpl in *. rewrite firstn_all in Hs1, Hv1, Hs2, Hv2.
  destruct combined1 as [s1 v1], combined2 as [s2 v2]. simpl in *. subst.
  unfold collected_sockets, collected_vsockets. rewrite !foldl_app. f_equal.
  - apply foldl_add_multiple_absorb. intros socket y Hin Hy.
    apply elem_of_foldl_add_multiple. right. exists socket. split; [auto|done].
  - apply foldl_add_multiple_absorb. intros socket y Hin Hy.
    apply elem_of_foldl_add_multiple. right. exists socket. split; [auto|done].
Qed.

Lemma repeated_requests_add_nothing_witness :
  let combined := {| sockets := [Example.age_socket; Example.normal_socket];
                     vsockets := [Example.age; Example.normal] |} in
  find_particle_dependencies AssertAbort Example.data_graph Example.requested
    [false; false] = Ret (combined, [true; false])
  ∧ find_particle_dependencies AssertAbort Example.data_graph
      (Example.requested ++ [Example.color_socket]) [false; false; false]
    = Ret (combined, [true; false; true])
  ∧ combined = combined.
Proof.
  intros combined. split; [reflexivity|]. split; [reflexivity|].
  apply (repeated_requests_add_nothing AssertAbort Example.data_graph
           Example.requested [Example.color_socket] [false; false; false]
           [true; false] [true; false; true] combined combined).
  - intros socket ->%list_elem_of_singleton. left.
  - reflexivity.
  - reflexivity.
Defined.

(** ** The particle function of a node *)

(** What the entry point has done when it returns a particle function. *)
Lemma create_particle_function_returned (mode : AssertMode) (vnode : VirtualNode)
    (data_graph : VTreeDataGraph) (particle_fn : ParticleFunction) :
  let requested := find_input_data_sockets vnode data_graph in
  let name := vnode_name vnode +:+ " Inputs" in
  create_particle_function mode vnode data_graph = Ret (Value (Some particle_fn)) →
  ∃ combined flags providers,
    find_particle_dependencies mode data_graph requested
      (replicate (length requested) false) = Ret (combined, flags)
    ∧ length flags = length requested
    ∧ create_function__with_deps mode name
        (filter (λ p, p.2 = true) (zip requested flags)).*1 combined
        (replicate (length (sockets combined)) None)
      = Ret (function_with_deps name
               (filter (λ p, p.2 = true) (zip requested flags)).*1 combined,
             providers)
    ∧ particle_fn
      = {| fn_without_deps :=
             create_function__without_deps name
               (filter (λ p, p.2 = false) (zip requested flags)).*1;
           fn_with_deps :=
             function_with_deps name
               (filter (λ p, p.2 = true) (zip requested flags)).*1 combined;
           input_providers := providers;
           depends_on_particle_flags := flags |}.
Proof.
  intros requested name Hrun. unfold create_particle_function in Hrun.
  fold requested name in Hrun.
  apply bind_Ret_inv in Hrun as ([combined flags] & Hdeps & Hrun).
  assert (Hlen : length flags = length requested).
  { apply find_particle_dependencies_upto_accumulated in Hdeps
      as (_ & _ & _ & _ & Hlen & _).
    simpl in Hlen. by rewrite length_replicate in Hlen. }
  apply create_particle_function_from_sockets_returned in Hrun
    as (w & wo & fn & providers & Hpart & Hfn & [= ->]).
  rewrite (partition_sockets_filter mode requested flags Hlen) in Hpart.
  injection Hpart as <- <-.
  pose proof Hfn as Hfn'.
  apply create_function__with_deps_returned in Hfn' as (-> & _);
    [|by rewrite length_replicate].
  by exists combined, flags, providers.
Qed.

(** X7: the flags of the particle function tell where every requested
    socket went: the merge of the outputs of the two functions along the
    flags is the list of the requested sockets, and there is one flag for
    every requested socket. *)
Theorem outputs_recombine (mode : AssertMode) (vnode : VirtualNode)
    (data_graph : VTreeDataGraph) (particle_fn : ParticleFunction) :
  create_particle_function mode vnode data_graph = Ret (Value (Some particle_fn)) →
  length (depends_on_particle_flags particle_fn)
  = length (find_input_data_sockets vnode data_graph)
  ∧ merge_by_flags (depends_on_particle_flags particle_fn)
      (fn_outputs (fn_with_deps particle_fn))
      (fn_outputs (fn_without_deps particle_fn))
    = find_input_data_sockets vnode data_graph.
Proof.
  intros Hrun. apply create_particle_function_returned in Hrun
    as (combined & flags & providers & _ & Hlen & _ & ->).
  simpl. split; [done|]. by apply merge_by_flags_filter.
Qed.

Lemma outputs_recombine_witness :
  ∃ particle_fn,
    create_particle_function AssertAbort Example.change_color Example.data_graph
    = Ret (Value (Some particle_fn))
    ∧ merge_by_flags (depends_on_particle_flags particle_fn)
        (fn_outputs (fn_with_deps particle_fn))
        (fn_outputs (fn_without_deps particle_fn))
      = [Example.color_socket; Example.size_socket].
Proof.
  eexists. split; [vm_compute; reflexivity|].
  apply (outputs_recombine AssertAbort Example.change_color Example.data_graph).
  vm_compute. reflexivity.
Defined.

(** X8: a requested socket is an output of the function with dependencies
    exactly when the graph reports a placeholder dependency for it, and an
    output of the function without dependencies exactly when it reports
    none; no socket is computed by both functions. *)
Theorem outputs_by_dependency (mode : AssertMode) (vnode : VirtualNode)
    (data_graph : VTreeDataGraph) (particle_fn : ParticleFunction) :
  create_particle_function mode vnode data_graph = Ret (Value (Some particle_fn)) →
  ∀ socket,
    (socket ∈ fn_outputs (fn_with_deps particle_fn)
     ↔ socket ∈ find_input_data_sockets vnode data_graph
       ∧ find_placeholder_dependencies data_graph socket ≠ [])
    ∧ (socket ∈ fn_outputs (fn_without_deps particle_fn)
       ↔ socket ∈ find_input_data_sockets vnode data_graph
         ∧ find_placeholder_dependencies data_graph socket = []).
Proof.
  intros Hrun socket. apply create_particle_function_returned in Hrun
    as (combined & flags & providers & Hdeps & Hlen & _ & ->).
  apply find_particle_dependencies_upto_accumulated in Hdeps
    as (_ & _ & _ & _ & _ & Hflags & _).
  simpl in *. set (requested := find_input_data_sockets vnode data_graph) in *.
  assert (Hflag : ∀ i s, requested !! i = Some s →
            flags !! i
            = Some (bool_decide (find_placeholder_dependencies data_graph s ≠ []))).
  { intros i s Hi. apply Hflags; [|done]. by eapply lookup_lt_Some. }
  assert (Hin : ∀ flag, socket ∈ (filter (λ p, p.2 = flag) (zip requested flags)).*1
                        ↔ ∃ i, requested !! i = Some socket ∧ flags !! i = Some flag).
  { intros flag. split; [apply filter_zip_elem|].
    intros (i & Hi & Hf). apply list_elem_of_fmap. exists (socket, flag).
    split; [done|]. apply list_elem_of_filter. split; [done|].
    apply list_elem_of_lookup. exists i. rewrite lookup_zip_with, Hi. simpl.
    by rewrite Hf. }
  rewrite !Hin. split; split.
  - intros (i & Hi & Hf). rewrite (Hflag i socket Hi) in Hf. injection Hf as Hf.
    apply bool_decide_eq_true in Hf. split; [by eapply list_elem_of_lookup_2|done].
  - intros [(i & Hi)%list_elem_of_lookup_1 Hdep]. exists i. split; [done|].
    rewrite (Hflag i socket Hi). f_equal. by apply bool_decide_eq_true.
  - intros (i & Hi & Hf). rewrite (Hflag i socket Hi) in Hf. injection Hf as Hf.
    apply bool_decide_eq_false in Hf. split; [by eapply list_elem_of_lookup_2|].
    by destruct (find_placeholder_dependencies data_graph socket);
      [|exfalso; apply Hf].
  - intros [(i & Hi)%list_elem_of_lookup_1 Hdep]. exists i. split; [done|].
    rewrite (Hflag i socket Hi). f_equal. apply bool_decide_eq_false.
    rewrite Hdep. by intros [].
Qed.

Lemma outputs_by_dependency_witness :
  Example.color_socket ∈ [Example.color_socket]
  ↔ Example.color_socket ∈ find_input_data_sockets Example.change_color Example.data_graph
    ∧ find_placeholder_dependencies Example.data_graph Example.color_socket ≠ [].
Proof.
  pose proof (outputs_by_dependency AssertAbort Example.change_color Example.data_graph
                {| fn_without_deps :=
                     create_function__without_deps "Change Color Inputs"
                       [Example.size_socket];
                   fn_with_deps :=
                     function_with_deps "Change Color Inputs" [Example.color_socket]
                       {| sockets := [Example.age_socket; Example.normal_socket];
                          vsockets := [Example.age; Example.normal] |};
                   input_providers :=
                     [Some AgeInputProvider; Some CollisionNormalInputProvider];
                   depends_on_particle_flags := [true; false] |}
                eq_refl Example.color_socket) as [Hwith _].
  exact Hwith.
Defined.

(** X9: both functions of a particle function carry the name of the node
    followed by " Inputs"; the function without dependencies has no
    inputs, and the function with dependencies has as inputs the
    placeholder sockets collected for the requested sockets, without
    duplicates, with one provider for each. *)
Theorem functions_of_the_node (mode : AssertMode) (vnode : VirtualNode)
    (data_graph : VTreeDataGraph) (particle_fn : ParticleFunction) :
  create_particle_function mode vnode data_graph = Ret (Value (Some particle_fn)) →
  fn_name (fn_without_deps particle_fn) = vnode_name vnode +:+ " Inputs"
  ∧ fn_name (fn_with_deps particle_fn) = vnode_name vnode +:+ " Inputs"
  ∧ fn_inputs (fn_without_deps particle_fn) = []
  ∧ fn_inputs (fn_with_deps particle_fn)
    = collected_sockets data_graph (find_input_data_sockets vnode data_graph)
  ∧ NoDup (fn_inputs (fn_with_deps particle_fn))
  ∧ length (input_providers particle_fn) = length (fn_inputs (fn_with_deps particle_fn)).
Proof.
  intros Hrun. apply create_particle_function_returned in Hrun
    as (combined & flags & providers & Hdeps & _ & Hfn & ->).
  apply find_particle_dependencies_upto_accumulated in Hdeps as (Hs & _).
  apply create_function__with_deps_returned in Hfn as (_ & Hlen & _);
    [|by rewrite length_replicate].
  simpl in *. rewrite firstn_all in Hs. rewrite Hs in *.
  split; [done|]. split; [done|]. split; [done|]. split; [done|]. split; [|done].
  apply foldl_add_multiple_NoDup, NoDup_nil_2.
Qed.

Lemma functions_of_the_node_witness :
  ∃ particle_fn,
    create_particle_function AssertAbort Example.change_color Example.data_graph
    = Ret (Value (Some particle_fn))
    ∧ fn_name (fn_with_deps particle_fn) = "Change Color Inputs"
    ∧ fn_inputs (fn_with_deps particle_fn)
      = [Example.age_socket; Example.normal_socket].
Proof.
  eexists. split; [vm_compute; reflexivity|].
  destruct (functions_of_the_node AssertAbort Example.change_color Example.data_graph
              _ eq_refl) as (_ & Hname & _ & Hinputs & _).
  split; [exact Hname | exact Hinputs].
Defined.

Lemma filter_zip_replicate_false {A : Type} (values : list A) :
  (filter (λ p, p.2 = true) (zip values (replicate (length values) false))).*1 = []
  ∧ (filter (λ p, p.2 = false) (zip values (replicate (length values) false))).*1
    = values.
Proof.
  induction values as [|x values [IHt IHf]]; [done|].
  change (zip (x :: values) (replicate (length (x :: values)) false))
    with ((x, false) :: zip values (replicate (length values) false)).
  rewrite (filter_cons_False (λ p, p.2 = true)) by done.
  rewrite (filter_cons_True (λ p, p.2 = false)) by done.
  split; [done|]. simpl. by f_equal.
Qed.

(** X10: when the graph reports no placeholder dependency for any requested
    socket, the entry point returns, in both builds, a particle function
    without providers: the function with dependencies has no inputs and no
    outputs, the function without dependencies computes every requested
    socket, and every flag is false. *)
Theorem constant_only_particle_function (mode : AssertMode) (vnode : VirtualNode)
    (data_graph : VTreeDataGraph) :
  let requested := find_input_data_sockets vnode data_graph in
  let name := vnode_name vnode +:+ " Inputs" in
  (∀ socket, socket ∈ requested → find_placeholder_dependencies data_graph socket = []) →
  create_particle_function mode vnode data_graph
  = Ret (Value (Some
      {| fn_without_deps := create_function__without_deps name requested;
         fn_with_deps :=
           function_with_deps name [] {| sockets := []; vsockets := [] |};
         input_providers := [];
         depends_on_particle_flags := replicate (length requested) false |})).
Proof.
  intros requested name Hnone.
  assert (Hreported : ∀ p, p ∉ reported_pairs data_graph requested).
  { intros p Hp. unfold reported_pairs in Hp.
    apply list_elem_of_bind in Hp as (socket & Hp & Hin).
    rewrite (Hnone socket Hin) in Hp. by apply elem_of_nil in Hp. }
  destruct (find_particle_dependencies_upto_analysed mode data_graph requested
              (replicate (length requested) false) (length requested))
    as ([[s v] flags] & Hrun & Hlen & Hflags & pairs & Hs & Hv & _ & _ & Hsub).
  { apply origin_one_to_one_elem. intros p q Hp. by apply Hreported in Hp. }
  { apply length_replicate. }
  { done. }
  simpl in *.
  assert (pairs = []) as ->.
  { apply elem_of_nil_inv. intros p Hp.
    by eapply Hreported, reported_pairs_take_all, Hsub. }
  assert (flags = replicate (length requested) false) as ->.
  { apply list_eq. intros i. destruct (decide (i < length requested)) as [Hi|Hi].
    - destruct (lookup_lt_is_Some_2 requested i Hi) as [socket Hsocket].
      rewrite (Hflags i socket Hi Hsocket), lookup_replicate_2 by done. f_equal.
      apply bool_decide_eq_false.
      rewrite (Hnone socket) by by eapply list_elem_of_lookup_2. by intros [].
    - rewrite !lookup_ge_None_2; [done| |]; rewrite ?length_replicate; lia. }
  subst s v. unfold create_particle_function, find_particle_dependencies.
  fold requested name. rewrite Hrun. simpl.
  unfold create_particle_function_from_sockets.
  rewrite (partition_sockets_filter mode requested _ (length_replicate _ _)).
  destruct (filter_zip_replicate_false requested) as [-> ->]. by destruct mode.
Qed.

Lemma constant_only_particle_function_witness :
  find_input_data_sockets Example.emitter Example.constant_graph = [Example.size_socket]
  ∧ ∃ particle_fn,
      create_particle_function AssertAbort Example.emitter Example.constant_graph
      = Ret (Value (Some particle_fn))
      ∧ input_providers particle_fn = []
      ∧ fn_inputs (fn_with_deps particle_fn) = []
      ∧ fn_outputs (fn_with_deps particle_fn) = []
      ∧ fn_outputs (fn_without_deps particle_fn) = [Example.size_socket]
      ∧ depends_on_particle_flags particle_fn = [false].
Proof.
  split; [reflexivity|]. eexists. split.
  - apply (constant_only_particle_function AssertAbort Example.emitter
             Example.constant_graph).
    intros socket Hin. reflexivity.
  - repeat split.
Defined.

Lemma create_input_provider_abort_inv (vsocket : VirtualSocket)
    (provider : option ParticleFunctionInputProvider) :
  create_input_provider AssertAbort vsocket = Ret provider →
  supported vsocket ∧ is_Some provider.
Proof.
  unfold create_input_provider, supported, STREQ.
  repeat case_bool_decide; intros [= <-]; eauto.
Qed.

Lemma create_input_provider_abort_unsupported (vsocket : VirtualSocket) :
  ¬ supported vsocket → create_input_provider AssertAbort vsocket = Abort.
Proof.
  unfold create_input_provider, supported, STREQ. intros Hnot.
  rewrite !bool_decide_eq_false_2 by tauto. done.
Qed.

Lemma create_input_provider_ignore_unsupported (vsocket : VirtualSocket) :
  ¬ supported vsocket → create_input_provider AssertIgnore vsocket = Ret None.
Proof.
  unfold create_input_provider, supported, STREQ. intros Hnot.
  rewrite !bool_decide_eq_false_2 by tauto. done.
Qed.

Lemma create_input_provider_ignore_total (vsocket : VirtualSocket) :
  ∃ provider, create_input_provider AssertIgnore vsocket = Ret provider.
Proof.
  unfold create_input_provider. repeat case_match; simpl; eauto.
Qed.

(** X11: where assertions abort, a particle function that was constructed
    has no null provider, and every virtual socket of the dependency set
    that got a provider belongs to a node kind the factory knows. *)
Theorem providers_not_null_where_assertions_abort (name : string)
    (sockets_to_compute : list DataSocket) (flags : list bool)
    (dependencies : SocketDependencies) (particle_fn : ParticleFunction) :
  create_particle_function_from_sockets AssertAbort name sockets_to_compute flags
    dependencies = Ret (Value (Some particle_fn)) →
  Forall is_Some (input_providers particle_fn)
  ∧ ∀ i vsocket, i < length (sockets dependencies) →
      vsockets dependencies !! i = Some vsocket → supported vsocket.
Proof.
  intros Hrun.
  apply create_particle_function_from_sockets_returned in Hrun
    as (w & wo & fn & providers & _ & Hfn & [= ->]).
  apply create_function__with_deps_returned in Hfn as (_ & Hlen & Hproviders);
    [|by rewrite length_replicate].
  simpl. split.
  - apply Forall_lookup_2. intros i provider Hi.
    destruct (Hproviders i) as (vsocket & p & _ & Hp & Hmade).
    { rewrite <- Hlen. by eapply lookup_lt_Some. }
    assert (p = provider) as -> by congruence.
    by apply create_input_provider_abort_inv in Hmade as [_ ?].
  - intros i vsocket Hi Hvsocket.
    destruct (Hproviders i Hi) as (v & p & Hv & _ & Hmade).
    assert (v = vsocket) as -> by congruence.
    by apply create_input_provider_abort_inv in Hmade as [? _].
Qed.

Lemma providers_not_null_where_assertions_abort_witness :
  Forall is_Some [Some AgeInputProvider; Some CollisionNormalInputProvider].
Proof.
  apply (providers_not_null_where_assertions_abort "Change Color Inputs"
           Example.requested [true; false]
           {| sockets := [Example.age_socket; Example.normal_socket];
              vsockets := [Example.age; Example.normal] |}
           {| fn_without_deps :=
                create_function__without_deps "Change Color Inputs"
                  [Example.size_socket];
              fn_with_deps :=
                function_with_deps "Change Color Inputs" [Example.color_socket]
                  {| sockets := [Example.age_socket; Example.normal_socket];
                     vsockets := [Example.age; Example.normal] |};
              input_providers :=
                [Some AgeInputProvider; Some CollisionNormalInputProvider];
              depends_on_particle_flags := [true; false] |}).
  reflexivity.
Defined.

(** X12: where assertions are compiled out, the construction returns a
    particle function also for virtual sockets of node kinds the factory
    does not know, and the provider at the index of such a socket is the
    null pointer. *)
Theorem unsupported_dependency_gets_null_provider (name : string)
    (sockets_to_compute : list DataSocket) (flags : list bool)
    (dependencies : SocketDependencies) :
  length flags = length sockets_to_compute →
  length (vsockets dependencies) = length (sockets dependencies) →
  ∃ particle_fn,
    create_particle_function_from_sockets AssertIgnore name sockets_to_compute flags
      dependencies = Ret (Value (Some particle_fn))
    ∧ ∀ i vsocket, vsockets dependencies !! i = Some vsocket →
        ¬ supported vsocket → input_providers particle_fn !! i = Some None.
Proof.
  intros Hflags Hsame. unfold create_particle_function_from_sockets.
  rewrite (partition_sockets_filter AssertIgnore _ _ Hflags). simpl.
  set (w := (filter (λ p, p.2 = true) (zip sockets_to_compute flags)).*1).
  assert (Hrun : ∃ fn providers,
            create_function__with_deps AssertIgnore name w dependencies
              (replicate (length (sockets dependencies)) None)
            = Ret (fn, providers)).
  { unfold create_function__with_deps.
    rewrite bool_decide_eq_true_2 by by rewrite length_replicate. simpl.
    destruct (for_range_total
                (create_function__with_deps_body AssertIgnore dependencies)
                (λ _ ps, length ps = length (sockets dependencies))
                (length (sockets dependencies))
                (replicate (length (sockets dependencies)) None))
      as (ps & -> & _).
    - apply length_replicate.
    - intros i ps Hi Hps. unfold create_function__with_deps_body.
      destruct (lookup_lt_is_Some_2 (vsockets dependencies) i ltac:(lia))
        as [vsocket Hvsocket].
      rewrite (proj2 (array_get_Ret AssertIgnore _ _ _) Hvsocket). simpl.
      destruct (create_input_provider_ignore_total vsocket) as [provider ->].
      simpl. unfold array_set. rewrite decide_True by lia.
      eexists. split; [done|]. by rewrite length_insert.
    - simpl. eauto. }
  destruct Hrun as (fn & providers & Hrun). rewrite Hrun. simpl.
  eexists. split; [done|]. simpl. intros i vsocket Hvsocket Hnot.
  apply create_function__with_deps_returned in Hrun as (_ & _ & Hproviders);
    [|by rewrite length_replicate].
  destruct (Hproviders i) as (v & p & Hv & Hp & Hmade).
  { rewrite <- Hsame. by eapply lookup_lt_Some. }
  assert (v = vsocket) as -> by congruence.
  rewrite (create_input_provider_ignore_unsupported vsocket Hnot) in Hmade.
  by injection Hmade as <-.
Qed.

Lemma unsupported_dependency_gets_null_provider_witness :
  ∃ particle_fn,
    create_particle_function_from_sockets AssertIgnore "Emitter Inputs"
      [Example.color_socket] [true]
      {| sockets := [Example.age_socket]; vsockets := [Example.rate] |}
    = Ret (Value (Some particle_fn))
    ∧ input_providers particle_fn !! 0 = Some None.
Proof.
  destruct (unsupported_dependency_gets_null_provider "Emitter Inputs"
              [Example.color_socket] [true]
              {| sockets := [Example.age_socket]; vsockets := [Example.rate] |}
              eq_refl eq_refl) as (particle_fn & Hrun & Hnull).
  exists particle_fn. split; [exact Hrun|].
  apply (Hnull 0 Example.rate eq_refl). intros [H|H]; discriminate H.
Defined.

(** A loop in which every round returns or stops at an assertion, and some
    round stops whatever state it gets, stops. *)
Lemma for_range_Abort {State : Type} (body : nat → State → Outcome State)
    (Inv : nat → State → Prop) (count : nat) (state : State) :
  Inv 0 state →
  (∀ i s, i < count → Inv i s →
     body i s = Abort ∨ ∃ s', body i s = Ret s' ∧ Inv (S i) s') →
  (∃ i, i < count ∧ ∀ s, Inv i s → body i s = Abort) →
  for_range body 0 count state = Abort.
Proof.
  intros Hinit Hstep.
  assert (Hprogress : ∀ n, n ≤ count →
            for_range body 0 n state = Abort
            ∨ ∃ s, for_range body 0 n state = Ret s ∧ Inv n s).
  { induction n as [|n IH]; intros Hn; [right; by exists state|].
    rewrite for_range_snoc. destruct IH as [->|(s & -> & Hs)]; [lia|by left|].
    simpl. apply Hstep; [lia|done]. }
  induction count as [|count IH]; intros (i & Hi & Hstop); [lia|].
  rewrite for_range_snoc.
  destruct (Hprogress count) as [->|(s & Hs & Hinv)]; [lia|done|].
  destruct (decide (i = count)) as [->|Hne].
  - rewrite Hs. simpl. by apply Hstop.
  - rewrite IH in Hs; [done| | |].
    + intros j s' Hj. apply Hstep. lia.
    + intros n Hn. apply Hprogress. lia.
    + exists i. split; [lia|done].
Qed.

(** X13: where assertions abort, a dependency set that holds a virtual
    socket of a node kind the factory does not know stops the
    construction: no particle function is returned. *)
Theorem unsupported_dependency_aborts (name : string)
    (sockets_to_compute : list DataSocket) (flags : list bool)
    (dependencies : SocketDependencies) :
  length flags = length sockets_to_compute →
  length (vsockets dependencies) = length (sockets dependencies) →
  (∃ vsocket, vsocket ∈ vsockets dependencies ∧ ¬ supported vsocket) →
  create_particle_function_from_sockets AssertAbort name sockets_to_compute flags
    dependencies = Abort.
Proof.
  intros Hflags Hsame (vsocket & Hin & Hnot).
  unfold create_particle_function_from_sockets.
  rewrite (partition_sockets_filter AssertAbort _ _ Hflags). simpl.
  unfold create_function__with_deps.
  rewrite bool_decide_eq_true_2 by by rewrite length_replicate. simpl.
  rewrite (for_range_Abort (create_function__with_deps_body AssertAbort dependencies)
             (λ _ ps, length ps = length (sockets dependencies))); [done| | |].
  - apply length_replicate.
  - intros i ps Hi Hps. unfold create_function__with_deps_body.
    destruct (lookup_lt_is_Some_2 (vsockets dependencies) i ltac:(lia)) as [v Hv].
    rewrite (proj2 (array_get_Ret AssertAbort _ _ _) Hv). simpl.
    destruct (create_input_provider AssertAbort v) as [provider| |] eqn:Hmade; simpl.
    + right. unfold array_set. rewrite decide_True by lia.
      eexists. split; [done|]. by rewrite length_insert.
    + by left.
    + exfalso. unfold create_input_provider in Hmade. by repeat case_match.
  - apply list_elem_of_lookup_1 in Hin as [i Hi]. exists i.
    split; [rewrite <- Hsame; by eapply lookup_lt_Some|].
    intros ps _. unfold create_function__with_deps_body.
    rewrite (proj2 (array_get_Ret AssertAbort _ _ _) Hi). simpl.
    by rewrite (create_input_provider_abort_unsupported vsocket Hnot).
Qed.

Lemma unsupported_dependency_aborts_witness :
  create_particle_function_from_sockets AssertAbort "Emitter Inputs"
    [Example.color_socket] [true]
    {| sockets := [Example.age_socket; Example.normal_socket];
       vsockets := [Example.age; Example.rate] |}
  = Abort.
Proof.
  apply (unsupported_dependency_aborts "Emitter Inputs" [Example.color_socket] [true]
           {| sockets := [Example.age_socket; Example.normal_socket];
              vsockets := [Example.age; Example.rate] |}).
  - reflexivity.
  - reflexivity.
  - exists Example.rate. split.
    + simpl. right. left.
    + intros [H|H]; discriminate H.
Defined.

Lemma partition_sockets_filter_le (mode : AssertMode) (sockets_to_compute : list DataSocket)
    (flags : list bool) :
  length sockets_to_compute ≤ length flags →
  partition_sockets mode sockets_to_compute flags
  = Ret ((filter (λ p, p.2 = true) (zip sockets_to_compute flags)).*1,
         (filter (λ p, p.2 = false) (zip sockets_to_compute flags)).*1).
Proof.
  intros Hlen.
  assert (Hcut : ∀ i, i < length sockets_to_compute →
            flags !! i = take (length sockets_to_compute) flags !! i).
  { intros i Hi. by rewrite lookup_take_lt. }
  assert (Hzip : zip sockets_to_compute flags
                 = zip sockets_to_compute (take (length sockets_to_compute) flags)).
  { apply list_eq. intros i. rewrite !lookup_zip_with.
    destruct (sockets_to_compute !! i) as [socket|] eqn:Hsocket; simpl; [|done].
    rewrite Hcut; [done|]. by eapply lookup_lt_Some. }
  rewrite Hzip.
  rewrite <- (partition_sockets_filter mode sockets_to_compute
                (take (length sockets_to_compute) flags))
    by (rewrite length_take; lia).
  unfold partition_sockets.
  assert (Hbody : ∀ count state,
            count ≤ length sockets_to_compute →
            for_range (partition_sockets_body mode sockets_to_compute flags) 0 count state
            = for_range (partition_sockets_body mode sockets_to_compute
                           (take (length sockets_to_compute) flags)) 0 count state).
  { induction count as [|count IH]; intros state Hcount; [done|].
    rewrite !for_range_snoc, IH by lia.
    destruct (for_range _ 0 count state) as [[w wo]| |]; simpl; [|done|done].
    unfold partition_sockets_body, array_get. rewrite <- Hcut by lia. done. }
  by apply Hbody.
Qed.

(** X14: where assertions abort, the partition returns exactly when the
    flag array has a flag for every requested socket.  On such an array it
    returns in both builds, and the flags behind the last requested socket
    are not read. *)
Theorem partition_returns_iff_flags_cover (sockets_to_compute : list DataSocket)
    (flags : list bool) :
  ((∃ result, partition_sockets AssertAbort sockets_to_compute flags = Ret result)
   ↔ length sockets_to_compute ≤ length flags)
  ∧ (∀ mode, length sockets_to_compute ≤ length flags →
       (∃ result, partition_sockets mode sockets_to_compute flags = Ret result)
       ∧ partition_sockets mode sockets_to_compute flags
         = partition_sockets mode sockets_to_compute
             (take (length sockets_to_compute) flags)).
Proof.
  split; [split|].
  - intros [result Hrun]. unfold partition_sockets in Hrun.
    apply (for_range_returned _ (λ i _, i ≤ length flags)) in Hrun; [done|lia|].
    intros i [w wo] s' _ _ Hbody. unfold partition_sockets_body in Hbody.
    apply bind_Ret_inv in Hbody as (flag & Hflag%array_get_Ret & _).
    by eapply lookup_lt_Some.
  - intros Hlen. eexists. by apply partition_sockets_filter_le.
  - intros mode Hlen. split; [eexists; by apply partition_sockets_filter_le|].
    rewrite (partition_sockets_filter_le mode _ flags Hlen).
    rewrite (partition_sockets_filter_le mode _ (take _ flags))
      by (rewrite length_take; lia).
    assert (zip sockets_to_compute flags
            = zip sockets_to_compute (take (length sockets_to_compute) flags))
      as <-; [|done].
    apply list_eq. intros i. rewrite !lookup_zip_with.
    destruct (sockets_to_compute !! i) as [socket|] eqn:Hsocket; simpl; [|done].
    rewrite lookup_take_lt; [done|]. by eapply lookup_lt_Some.
Qed.

Lemma partition_returns_iff_flags_cover_witness :
  partition_sockets AssertIgnore Example.requested [true; false; true]
  = partition_sockets AssertIgnore Example.requested [true; false]
  ∧ ¬ ∃ result, partition_sockets AssertAbort Example.requested [true] = Ret result.
Proof.
  destruct (partition_returns_iff_flags_cover Example.requested [true; false; true])
    as [_ Hcut].
  destruct (partition_returns_iff_flags_cover Example.requested [true])
    as [[Hreturns _] _].
  split.
  - apply (Hcut AssertIgnore). simpl. lia.
  - intros Hrun. apply Hreturns in Hrun. simpl in Hrun. lia.
Defined.

(** ** The providers, further *)

Lemma for_each_returned_each {A State : Type} (body : A → State → Outcome State)
    (Inv : State → Prop) (values : list A) (state state' : State) :
  for_each body values state = Ret state' →
  Inv state →
  (∀ x s s', Inv s → body x s = Ret s' → Inv s') →
  ∀ x, x ∈ values → ∃ s1 s2, Inv s1 ∧ body x s1 = Ret s2.
Proof.
  intros Hrun Hinit Hstep. revert state Hrun Hinit.
  induction values as [|y values IH]; intros state Hrun Hinit x Hx.
  - by apply elem_of_nil in Hx.
  - simpl in Hrun. apply bind_Ret_inv in Hrun as (s & Hbody & Hrun).
    apply elem_of_cons in Hx as [->|Hx]; [eauto|].
    eapply (IH s); [done| |done]. by eapply Hstep.
Qed.

Section ProviderProofsFurther.
Context {float : Type}.
Variable fsub : float → float → float.
Variable mode : AssertMode.

Lemma CollisionNormalInputProvider_get_returned
    (interface interface' : InputProviderInterface float)
    (array : ParticleFunctionInputArray) :
  CollisionNormalInputProvider_get mode interface = Ret (array, interface') →
  interface' = interface
  ∧ array = {| buffer := CollisionNormalsPtr; stride := sizeof_float3; is_owned := false |}
  ∧ ∃ normals, action_context interface = Some (CollisionEventInfo normals).
Proof.
  unfold CollisionNormalInputProvider_get.
  destruct (action_context interface) as [[normals|]|]; destruct mode; simpl;
    intros [= <- <-] || (intros Hrun; discriminate Hrun).
  all: eauto.
Qed.

(** The rounds of the loops of the age provider, read back from a run that
    returned. *)
Lemma age_loop_in_range (times : list float) (birth_times : list float)
    (value : float → float → float) (array : nat) (indices : list nat)
    (allocated allocator : ArrayAllocator float) (fresh : list float) :
  arena allocated !! array = Some fresh →
  for_each (λ pindex a,
              time ← array_get mode times pindex;
              birth_time ← array_get mode birth_times pindex;
              store array pindex (value time birth_time) a)
           indices allocated = Ret allocator →
  ∀ pindex, pindex ∈ indices →
    pindex < length fresh ∧ pindex < length birth_times ∧ pindex < length times.
Proof.
  intros Hfresh Hrun pindex Hin.
  destruct (for_each_returned_each _ (stored_to array allocated) _ _ _ Hrun)
    with (x := pindex) as (s1 & s2 & Hs1 & Hbody).
  - by eapply stored_to_refl.
  - intros x s s' Hs Hbody.
    apply bind_Ret_inv in Hbody as (time & _ & Hbody).
    apply bind_Ret_inv in Hbody as (birth_time & _ & Hbody).
    by eapply stored_to_store.
  - done.
  - apply bind_Ret_inv in Hbody as (time & Htime%array_get_Ret & Hbody).
    apply bind_Ret_inv in Hbody as (birth_time & Hbirth%array_get_Ret & Hbody).
    apply store_Ret in Hbody as (values & Hvalues & Hlt & _).
    destruct Hs1 as (_ & _ & v0 & v' & Hv0 & Hlen & Harena).
    assert (array < length (arena allocated)) by by eapply lookup_lt_Some.
    rewrite Harena, list_lookup_insert_eq in Hvalues by done.
    injection Hvalues as <-. rewrite Hfresh in Hv0. injection Hv0 as <-.
    split; [lia|]. split; by eapply lookup_lt_Some.
Qed.
End ProviderProofsFurther.

(** X15: the collision normal provider returns exactly when the action
    context is a collision event; it then returns the view of the normals
    with the stride of a vector of three floats, not owned, and leaves the
    interface as it was, in both builds. *)
Theorem collision_normal_returns_iff_collision_event {float : Type} (mode : AssertMode)
    (interface : InputProviderInterface float) :
  ((∃ result, CollisionNormalInputProvider_get mode interface = Ret result)
   ↔ ∃ normals, action_context interface = Some (CollisionEventInfo normals))
  ∧ ∀ array interface',
      CollisionNormalInputProvider_get mode interface = Ret (array, interface') →
      interface' = interface
      ∧ array = {| buffer := CollisionNormalsPtr;
                   stride := sizeof_float3;
                   is_owned := false |}.
Proof.
  split; [split|].
  - intros [[array interface'] Hrun].
    by apply CollisionNormalInputProvider_get_returned in Hrun as (_ & _ & ?).
  - intros [normals Hcontext]. unfold CollisionNormalInputProvider_get.
    rewrite Hcontext. simpl. eauto.
  - intros array interface' Hrun.
    by apply CollisionNormalInputProvider_get_returned in Hrun as (? & ? & _).
Qed.

Lemma collision_normal_returns_iff_collision_event_witness :
  let interface := Example.interface (Current [5; 5; 5; 5]%Z)
                     (Some (CollisionEventInfo [(0, 0, 1)%Z])) in
  ∃ array, CollisionNormalInputProvider_get AssertAbort interface = Ret (array, interface)
           ∧ is_owned array = false.
Proof.
  intros interface.
  destruct (collision_normal_returns_iff_collision_event AssertAbort interface)
    as [[_ Hreturns] Hresult].
  destruct Hreturns as [[array interface'] Hrun]; [by eexists|].
  destruct (Hresult array interface' Hrun) as [-> ->].
  eexists. split; [exact Hrun | reflexivity].
Defined.

(** X16: a view is owned exactly when the call that returned it took an
    array from the allocator.  Whatever the provider, a call that returns
    leaves the particles, the times and the action context as they were;
    the age provider adds one array and returns it as owned, the other
    providers leave the allocator as it was and return a view that is not
    owned. *)
Theorem owned_iff_allocated {float : Type} (fsub : float → float → float)
    (mode : AssertMode) (provider : ParticleFunctionInputProvider)
    (interface interface' : InputProviderInterface float)
    (array : ParticleFunctionInputArray) :
  ParticleFunctionInputProvider_get fsub mode provider interface
  = Ret (array, interface') →
  particles interface' = particles interface
  ∧ particle_times interface' = particle_times interface
  ∧ action_context interface' = action_context interface
  ∧ (is_owned array = true ↔ provider = AgeInputProvider)
  ∧ (is_owned array = true →
     buffer array = ArenaPtr (length (arena (array_allocator interface)))
     ∧ ∃ ages, arena (array_allocator interface')
               = arena (array_allocator interface) ++ [ages])
  ∧ (is_owned array = false → array_allocator interface' = array_allocator interface).
Proof.
  destruct provider as [m_name| |]; simpl; intros Hrun.
  - apply AttributeInputProvider_get_returned in Hrun as (-> & Howned & _).
    rewrite Howned. repeat split; done.
  - apply CollisionNormalInputProvider_get_returned in Hrun as (-> & -> & _).
    simpl. repeat split; done.
  - apply AgeInputProvider_get_returned in Hrun as (-> & ages & -> & _).
    simpl. split; [done|]. split; [done|]. split; [done|]. split; [done|].
    split; [eauto|done].
Qed.

Lemma owned_iff_allocated_witness :
  ∃ array interface',
    ParticleFunctionInputProvider_get Z.sub AssertAbort AgeInputProvider
      (Example.interface (Current [5; 5; 5; 5]%Z) None) = Ret (array, interface')
    ∧ is_owned array = true
    ∧ buffer array = ArenaPtr 0.
Proof.
  eexists _, _. split; [vm_compute; reflexivity|].
  destruct (owned_iff_allocated Z.sub AssertAbort AgeInputProvider
              (Example.interface (Current [5; 5; 5; 5]%Z) None) _ _ eq_refl)
    as (_ & _ & _ & Howned & Hbuffer & _).
  split; [by apply Howned|]. by apply Hbuffer, Howned.
Defined.

(** X17: what the age provider returns depends on the set of the indices of
    the batch only, not on their order or on how often an index occurs. *)
Theorem age_independent_of_index_order {float : Type} (fsub : float → float → float)
    (mode : AssertMode) (interface : InputProviderInterface float)
    (birth_times : list float) (indices : list nat) :
  attributes_get_float mode (attributes (particles interface)) "Birth Time"
  = Ret birth_times →
  pindices_in_range interface birth_times →
  (∀ pindex, pindex ∈ indices ↔ pindex ∈ pindices (particles interface)) →
  ∃ array allocator,
    AgeInputProvider_get fsub mode interface
    = Ret (array, with_allocator interface allocator)
    ∧ AgeInputProvider_get fsub mode (with_pindices interface indices)
      = Ret (array, with_allocator (with_pindices interface indices) allocator).
Proof.
  intros Hbirth Hrange Hsame.
  destruct (AgeInputProvider_get_total fsub mode interface birth_times Hbirth Hrange)
    as (ages & Hrun & Hlen & Hin & Hout).
  destruct (AgeInputProvider_get_total fsub mode (with_pindices interface indices)
              birth_times Hbirth)
    as (ages' & Hrun' & Hlen' & Hin' & Hout').
  { unfold pindices_in_range in *. simpl. rewrite Forall_forall in *.
    intros pindex Hp. apply Hrange. by apply Hsame. }
  simpl in *.
  assert (ages' = ages) as ->.
  { apply list_eq. intros i. destruct (decide (i ∈ indices)) as [Hi|Hi].
    - rewrite (Hin' i Hi). symmetry. apply Hin. by apply Hsame.
    - rewrite (Hout' i Hi). symmetry. apply Hout. by rewrite <- Hsame. }
  eexists _, _. split; [exact Hrun | exact Hrun'].
Qed.

Lemma age_independent_of_index_order_witness :
  ∃ array allocator,
    AgeInputProvider_get Z.sub AssertAbort (Example.interface (Current [5; 5; 5; 5]%Z) None)
    = Ret (array, with_allocator (Example.interface (Current [5; 5; 5; 5]%Z) None)
                    allocator)
    ∧ AgeInputProvider_get Z.sub AssertAbort
        (with_pindices (Example.interface (Current [5; 5; 5; 5]%Z) None) [0; 2; 0])
      = Ret (array,
             with_allocator
               (with_pindices (Example.interface (Current [5; 5; 5; 5]%Z) None) [0; 2; 0])
               allocator).
Proof.
  apply (age_independent_of_index_order Z.sub AssertAbort
           (Example.interface (Current [5; 5; 5; 5]%Z) None) [0; 2; 1; 4]%Z [0; 2; 0]).
  - reflexivity.
  - unfold pindices_in_range. simpl. repeat constructor; simpl; lia.
  - intros pindex. simpl. rewrite !elem_of_cons, !elem_of_nil. tauto.
Defined.

(** X18: where assertions abort, the age provider returns only when it has
    found the column of the birth times and every index of the batch is
    inside the birth times and the times of the variant, which are the
    reads the containers check.  (The store through the raw pointer is not
    checked in any build, and nothing is said of it here.) *)
Theorem age_reads_in_range_where_assertions_abort {float : Type}
    (fsub : float → float → float)
    (interface interface' : InputProviderInterface float)
    (array : ParticleFunctionInputArray) :
  AgeInputProvider_get fsub AssertAbort interface = Ret (array, interface') →
  ∃ birth_times,
    attributes_get_float AssertAbort (attributes (particles interface)) "Birth Time"
    = Ret birth_times
    ∧ Forall (λ pindex,
                pindex < length birth_times
                ∧ pindex < match particle_times interface with
                           | Current current_times => length current_times
                           | DurationAndEnd remaining_durations _ =>
                               length remaining_durations
                           end)
             (pindices (particles interface)).
Proof.
  intros Hrun. unfold AgeInputProvider_get in Hrun.
  apply bind_Ret_inv in Hrun as (birth_times & Hbirth & Hrun). simpl in Hrun.
  exists birth_times. split; [done|].
  set (allocator := array_allocator interface) in *.
  set (fresh := uninitialized allocator <$> seq 0 (array_size allocator)) in Hrun.
  set (allocated := {| array_size := array_size allocator;
                       arena := arena allocator ++ [fresh];
                       uninitialized := uninitialized allocator |}) in Hrun.
  apply bind_Ret_inv in Hrun as (a & Hloop & _).
  assert (Hfresh : arena allocated !! length (arena allocator) = Some fresh).
  { simpl. by rewrite list_lookup_middle. }
  apply Forall_forall. intros pindex Hin.
  destruct (particle_times interface) as [current_times|remaining_durations end_time].
  - by apply (age_loop_in_range AssertAbort current_times birth_times fsub
                (length (arena allocator)) (pindices (particles interface))
                allocated a fresh Hfresh Hloop).
  - by apply (age_loop_in_range AssertAbort remaining_durations birth_times
                (λ remaining_duration birth_time,
                   fsub (fsub end_time remaining_duration) birth_time)
                (length (arena allocator)) (pindices (particles interface))
                allocated a fresh Hfresh Hloop).
Qed.

Lemma age_reads_in_range_where_assertions_abort_witness :
  ∃ birth_times,
    attributes_get_float AssertAbort Example.attribute_columns "Birth Time"
    = Ret birth_times
    ∧ Forall (λ pindex, pindex < length birth_times ∧ pindex < 4) [2; 0].
Proof.
  apply (age_reads_in_range_where_assertions_abort Z.sub
           (Example.interface (Current [5; 5; 5; 5]%Z) None) _ _ eq_refl).
Defined.

(** X19: two calls of the age provider in one evaluation return two
    different arrays, and the second call leaves the array of the first as
    the first call wrote it. *)
Theorem two_ages_two_arrays {float : Type} (fsub : float → float → float)
    (mode : AssertMode) (interface interface1 interface2 : InputProviderInterface float)
    (array1 array2 : ParticleFunctionInputArray) :
  AgeInputProvider_get fsub mode interface = Ret (array1, interface1) →
  AgeInputProvider_get fsub mode interface1 = Ret (array2, interface2) →
  buffer array1 ≠ buffer array2
  ∧ ∃ ages1 ages2,
      arena (array_allocator interface1) = arena (array_allocator interface) ++ [ages1]
      ∧ arena (array_allocator interface2)
        = arena (array_allocator interface) ++ [ages1; ages2].
Proof.
  intros Hrun1 Hrun2.
  apply AgeInputProvider_get_returned in Hrun1 as (-> & ages1 & -> & _).
  apply AgeInputProvider_get_returned in Hrun2 as (-> & ages2 & -> & _).
  simpl. split.
  - rewrite length_app. simpl. intros [= Heq]. lia.
  - exists ages1, ages2. split; [done|]. by rewrite <- app_assoc.
Qed.

Lemma two_ages_two_arrays_witness :
  ∃ array1 interface1 array2 interface2,
    AgeInputProvider_get Z.sub AssertAbort (Example.interface (Current [5; 5; 5; 5]%Z) None)
    = Ret (array1, interface1)
    ∧ AgeInputProvider_get Z.sub AssertAbort interface1 = Ret (array2, interface2)
    ∧ buffer array1 ≠ buffer array2.
Proof.
  eexists _, _, _, _. split; [vm_compute; reflexivity|]. split; [vm_compute; reflexivity|].
  apply (two_ages_two_arrays Z.sub AssertAbort
           (Example.interface (Current [5; 5; 5; 5]%Z) None) _ _ _ _ eq_refl eq_refl).
Defined.

(** X20: the provider the factory makes for an input of a particle info
    node other than "Age" reads, at evaluation time, the attribute column
    that has the name of the input: the view points to that column, has its
    stride, and the interface is left as it was. *)
Theorem attribute_named_after_input {float : Type} (fsub : float → float → float)
    (mode : AssertMode) (vsocket : VirtualSocket)
    (provider : ParticleFunctionInputProvider)
    (interface interface' : InputProviderInterface float)
    (array : ParticleFunctionInputArray) :
  vnode_idname (vsocket_vnode vsocket) = "bp_ParticleInfoNode" →
  vsocket_name vsocket ≠ "Age" →
  create_input_provider mode vsocket = Ret (Some provider) →
  ParticleFunctionInputProvider_get fsub mode provider interface
  = Ret (array, interface') →
  interface' = interface
  ∧ ∃ index column,
      attributes (particles interface) !! index = Some column
      ∧ attribute_name column = vsocket_name vsocket
      ∧ buffer array = AttributePtr index
      ∧ stride array = attribute_stride column
      ∧ is_owned array = false.
Proof.
  intros Hkind Hname Hmade Hrun. unfold create_input_provider, STREQ in Hmade.
  rewrite Hkind in Hmade. rewrite bool_decide_eq_true_2 in Hmade by done.
  rewrite bool_decide_eq_false_2 in Hmade by done. injection Hmade as <-.
  simpl in Hrun.
  apply AttributeInputProvider_get_returned in Hrun
    as (-> & Howned & index & column & Hcolumn & Hcname & Hbuffer & Hstride).
  split; [done|]. exists index, column. done.
Qed.

Lemma attribute_named_after_input_witness :
  let vsocket := {| vsocket_address := 8; vsocket_name := "Position";
                    vsocket_vnode := Example.particle_info |} in
  let interface := Example.interface (Current [5; 5; 5; 5]%Z) None in
  ∃ index column,
    attributes (particles interface) !! index = Some column
    ∧ attribute_name column = "Position"
    ∧ attribute_stride column = 12.
Proof.
  intros vsocket interface.
  destruct (attribute_named_after_input Z.sub AssertAbort vsocket
              (AttributeInputProvider "Position") interface interface
              {| buffer := AttributePtr 0; stride := 12; is_owned := false |})
    as (_ & index & column & Hcolumn & Hname & Hbuffer & Hstride & _).
  - reflexivity.
  - discriminate.
  - reflexivity.
  - reflexivity.
  - exists index, column. split; [exact Hcolumn|]. split; [exact Hname|].
    simpl in Hstride. by rewrite <- Hstride.
Defined.
